(** * Starfield: a stereoscopic VR demo (package main, main.go)

    A shallow embedding of the frame driver of [main.go] and the properties
    of its setup code and of its render/submit loop.

    The program is a sequence of calls into GLFW, OpenGL (through fizzle),
    and OpenVR.  The embedding keeps what the program owns — the
    [starfield] struct, the window wrapper, the loops and branches — and
    records every call that leaves the program in a trace; what the outside
    world answers comes from an environment record. *)

From Stdlib Require Import ZArith QArith Qpower Lia Lqa List String Ascii Bool.
From Stdlib Require DecimalString SpecFloat.
Import ListNotations.

Local Open Scope Z_scope.

(* ================================================================== *)
(** * Floating point values

    Go's [float64] and [float32] are IEEE 754 binary64 and binary32 with
    round to nearest, ties to even.  A finite value is a pair of an
    integer and a binary exponent, [Fin m e] standing for [m * 2^e]; the
    format only enters when a result is rounded.  The sign of zero is not
    kept: comparisons do not see it. *)

Module Float.

Inductive float : Type :=
| Fin (m e : Z)
| Inf (neg : bool)
| NaN.

Record format : Type := { prec : Z; emin : Z; emax : Z }.

(** [prec] bits of significand, least exponent [emin] of a unit in the
    last place, finite values below [2^emax]. *)
Definition binary64 : format := {| prec := 53; emin := -1074; emax := 1024 |}.
Definition binary32 : format := {| prec := 24; emin := -149; emax := 128 |}.

Definition zero : float := Fin 0 0.

(** Nearest integer to [m / 2^sh], ties to even. *)
Definition rne (m sh : Z) : Z :=
  let q := m / 2 ^ sh in
  let r := m mod 2 ^ sh in
  let half := 2 ^ (sh - 1) in
  if r <? half then q
  else if half <? r then q + 1
  else if Z.even q then q else q + 1.

Definition digits (m : Z) : Z := Z.log2 (Z.abs m) + 1.

(** Rounding of the exact value [m * 2^e] into format [f]. *)
Definition round (f : format) (m e : Z) : float :=
  let sh := Z.max (digits m - prec f) (emin f - e) in
  let m' := if 0 <? sh then rne m sh else m in
  let e' := if 0 <? sh then e + sh else e in
  if m' =? 0 then zero
  else if emax f <? digits m' + e' then Inf (m' <? 0)
  else Fin m' e'.

Definition mul (f : format) (x y : float) : float :=
  match x, y with
  | NaN, _ | _, NaN => NaN
  | Inf s, Inf t => Inf (xorb s t)
  | Inf s, Fin m _ | Fin m _, Inf s =>
      if m =? 0 then NaN else Inf (xorb s (m <? 0))
  | Fin m1 e1, Fin m2 e2 => round f (m1 * m2) (e1 + e2)
  end.

Definition add (f : format) (x y : float) : float :=
  match x, y with
  | NaN, _ | _, NaN => NaN
  | Inf s, Inf t => if Bool.eqb s t then Inf s else NaN
  | Inf s, Fin _ _ | Fin _ _, Inf s => Inf s
  | Fin m1 e1, Fin m2 e2 =>
      let e := Z.min e1 e2 in
      round f (m1 * 2 ^ (e1 - e) + m2 * 2 ^ (e2 - e)) e
  end.

Definition sub (f : format) (x y : float) : float :=
  match x, y with
  | NaN, _ | _, NaN => NaN
  | Inf s, Inf t => if Bool.eqb s t then NaN else Inf s
  | Inf s, Fin _ _ => Inf s
  | Fin _ _, Inf t => Inf (negb t)
  | Fin m1 e1, Fin m2 e2 =>
      let e := Z.min e1 e2 in
      round f (m1 * 2 ^ (e1 - e) - m2 * 2 ^ (e2 - e)) e
  end.

(** Division: the quotient is computed with two bits more than the format
    keeps, the lowest one telling whether a remainder was dropped. *)
Definition div (f : format) (x y : float) : float :=
  match x, y with
  | NaN, _ | _, NaN => NaN
  | Inf _, Inf _ => NaN
  | Inf s, Fin m _ => Inf (xorb s (m <? 0))
  | Fin _ _, Inf _ => zero
  | Fin m1 e1, Fin m2 e2 =>
      if m2 =? 0 then (if m1 =? 0 then NaN else Inf (m1 <? 0))
      else
        let k := prec f + 2 + digits m2 in
        let n := Z.abs m1 * 2 ^ k in
        let q := n / Z.abs m2 in
        let sticky := if n mod Z.abs m2 =? 0 then 0 else 1 in
        let mag := 2 * q + sticky in
        let sgn := if xorb (m1 <? 0) (m2 <? 0) then -1 else 1 in
        round f (sgn * mag) (e1 - e2 - k - 1)
  end.

(** The conversion [float32(x)] of a [float64]. *)
Definition to32 (x : float) : float :=
  match x with
  | Fin m e => round binary32 m e
  | _ => x
  end.

(** A constant [n/d] of the source text, rounded once to its type. *)
Definition lit (f : format) (n d : Z) : float := div f (Fin n 0) (Fin d 0).

(** The rational a finite value stands for. *)
Definition pow2 (e : Z) : Q := (2 ^ e)%Q.
Definition F2Q (m e : Z) : Q := (inject_Z m * pow2 e)%Q.

(** [x] is finite and lies in the closed interval from [lo] to [hi]. *)
Definition between (lo hi : Z) (x : float) : Prop :=
  match x with
  | Fin m e => (inject_Z lo <= F2Q m e /\ F2Q m e <= inject_Z hi)%Q
  | _ => False
  end.

(** [x] is finite and lies in the half-open unit interval. *)
Definition unit_interval (x : float) : Prop :=
  match x with
  | Fin m e => (0 <= F2Q m e /\ F2Q m e < 1)%Q
  | _ => False
  end.

End Float.

Abbreviation float := Float.float.

(* ================================================================== *)
(** * Data *)

(** [mgl32.Vec3] is an array of 3 [float32]; [mgl32.Vec4], [mgl32.Mat4]
    and [openvr.Mat34] are arrays of 4, 16 and 12. *)
Definition Vec3 : Type := (float * float * float)%type.
Definition Vec4 : Type := list float.
Definition Mat4 : Type := list float.
Definition Mat34 : Type := list float.

(** Go's zero values of [mgl32.Vec3] and [mgl32.Mat4]. *)
Definition Vec3_zero : Vec3 := (Float.zero, Float.zero, Float.zero).
Definition Mat4_zero : Mat4 := repeat Float.zero 16.

(** [m[i]] on an array. *)
Definition index (m : list float) (i : nat) : float := nth i m Float.zero.

(** [v[i] = x] on a [Vec3]; the compiler rejects any other constant
    index. *)
Definition assign (v : Vec3) (i : nat) (x : float) : Vec3 :=
  let '(v0, v1, v2) := v in
  match i with
  | 0%nat => (x, v1, v2)
  | 1%nat => (v0, x, v2)
  | 2%nat => (v0, v1, x)
  | _ => v
  end.

(** The matrix routines of [mgl32] and [openvr] the driver calls. *)
Class Library : Type := {
  Mat4_Inv : Mat4 -> Mat4;
  Mat4_Mul4 : Mat4 -> Mat4 -> Mat4;
  Mat34ToMat4 : Mat34 -> Mat4
}.

(** Objects owned by the libraries are known by a handle. *)
Definition handle : Type := Z.

(** Conversions between Go's integer types. *)
Definition uint32 (z : Z) : Z := z mod 2 ^ 32.
Definition int32 (z : Z) : Z := (z + 2 ^ 31) mod 2 ^ 32 - 2 ^ 31.

(** ** Constants of the OpenVR binding *)
Definition EyeLeft : Z := 0.
Definition EyeRight : Z := 1.
Definition TrackedDeviceIndexHmd : Z := 0.
Definition PropTrackingSystemNameString : Z := 1000.
Definition PropSerialNumberString : Z := 1002.
Definition TrackedPropSuccess : Z := 0.
Definition VREventTrackedDeviceActivated : Z := 100.
Definition VREventTrackedDeviceDeactivated : Z := 101.
Definition VREventTrackedDeviceUpdated : Z := 102.

Inductive shader_source : Type :=
| ShaderRenderModelV | ShaderRenderModelF
| ShaderLensDistortionV | ShaderLensDistortionF.

(** ** Constants of GLFW and of the graphics provider *)
Inductive glfw_hint : Type :=
| Samples | ContextVersionMajor | ContextVersionMinor
| OpenGLForwardCompatible | OpenGLProfile.

Inductive glfw_value : Type :=
| HintInt (n : Z) | GlfwTrue | OpenGLCoreProfile.

Inductive glfw_key : Type :=
| KeyEscape
| KeyOther (code : Z).

Inductive glenum : Type :=
| CULL_FACE | MULTISAMPLE | DEPTH_TEST
| FRAMEBUFFER | READ_FRAMEBUFFER | DRAW_FRAMEBUFFER
| LINEAR.

Definition COLOR_BUFFER_BIT : Z := 0x4000.
Definition DEPTH_BUFFER_BIT : Z := 0x100.

(** ** Structs *)

Record VREvent : Type := {
  EventType : Z;
  TrackedDeviceIndex : Z
}.

Record TrackedDevicePose : Type := {
  DeviceToAbsoluteTracking : Mat34
}.

Record EyeTransforms : Type := {
  PositionLeft : Mat4;
  PositionRight : Mat4;
  ProjectionLeft : Mat4;
  ProjectionRight : Mat4
}.

Record EyeFramebuffer : Type := {
  RenderFramebuffer : Z;
  ResolveFramebuffer : Z;
  ResolveTexture : Z
}.

Record Material : Type := {
  Shader : handle;
  DiffuseColor : Vec4;
  Shininess : float
}.

Record Light : Type := {
  Direction : Vec3;
  DiffuseIntensity : float;
  SpecularIntensity : float;
  AmbientIntensity : float
}.

(** A [*fizzle.Renderable]: the mesh [CreateSphere] built and the two
    fields the program assigns. *)
Record Renderable : Type := {
  Mesh : handle;
  RenderableMaterial : option Material;
  Location : Vec3
}.

Record FixedCamera : Type := {
  View : Mat4;
  Position : Vec3
}.

Definition GetViewMatrix (c : FixedCamera) : Mat4 := View c.
Definition GetPosition (c : FixedCamera) : Vec3 := Position c.

(** The [*glfw.Window]: its handle and the close flag GLFW keeps in it. *)
Record glfw_window : Type := {
  win_handle : handle;
  should_close : bool
}.

Module window.
Record window : Type := {
  Window : glfw_window;
  width : Z;
  height : Z;
  title : string
}.
End window.
Abbreviation window := window.window.

Record vrSystem : Type := {
  System : handle
}.

(** The struct [starfield]; [app_window] and [app_vrSystem] are its
    embedded [*window] and [*vrSystem].  Its own [width] and [height]
    hide the promoted fields of the embedded [*window]: a selector
    [a.width] is the field declared here. *)
Record starfield : Type := {
  app_window : window;
  app_vrSystem : vrSystem;
  gl : handle;
  height : Z;
  width : Z;
  eyeLeft : EyeFramebuffer;
  eyeRight : EyeFramebuffer;
  eyeTransforms : EyeTransforms;
  distortionLens : handle;
  kbModel : handle;
  vrCompositor : handle;
  hmdPose : Mat4;
  hmdLoc : Vec3;
  renderer : handle;
  deviceRenderables : handle;
  renderables : list Renderable
}.

(* ================================================================== *)
(** * Calls that leave the program *)

Inductive call : Type :=
(* glfw *)
| GlfwInit
| WindowHint (hint : glfw_hint) (value : glfw_value)
| CreateWindow (w h : Z) (title : string)
| SetSizeCallback
| MakeContextCurrent
| SwapInterval (interval : Z)
| PollEvents
| ShouldClose
| SetShouldClose (value : bool)
| SwapBuffers
(* glfwinput *)
| NewKeyboardModel (w : handle)
| BindTrigger (key : glfw_key)
| SetupCallbacks
| CheckKeyPresses
(* openvr *)
| VRInit
| GetStringTrackedDeviceProperty (device property : Z)
| PollNextEvent
| GetRecommendedRenderTargetSize
| GetEyeTransforms (near far : float)
| GetCompositor
| Submit (eye texture : Z)
| WaitGetPoses (returnPoses : bool)
| IsPoseValid (device : Z)
| GetRenderPose (device : Z)
(* opengl, fizzle, forward *)
| InitOpenGL
| SetGraphics (g : handle)
| CreateBasicShader
| LoadShaderProgram (vertex fragment : shader_source)
| NewForwardRenderer (g : handle)
| ChangeResolution (w h : Z)
| NewDirectionalLight (dir : Vec3)
| SetActiveLight (slot : Z) (l : Light)
| NewMaterial
| CreateSphere (radius : float) (rings sectors : Z)
| DrawRenderable (r : Renderable) (binder : option handle)
    (perspective view : Mat4) (camera : FixedCamera)
| Enable (cap : glenum)
| Disable (cap : glenum)
| ClearColor (r g b a : float)
| Clear (mask : Z)
| BindFramebuffer (target : glenum) (buffer : Z)
| Viewport (x y w h : Z)
| BlitFramebuffer (srcX0 srcY0 srcX1 srcY1 dstX0 dstY0 dstX1 dstY1 : Z)
    (mask : Z) (filter : glenum)
(* fizzlevr *)
| CreateStereoRenderTargets (w h : Z)
| CreateDistortionLens (system shader : handle) (left right : EyeFramebuffer)
| CreateDeviceRenderables (system shader : handle)
| LensRender (w h : Z)
| RenderDevices (compositor : handle) (perspective view : Mat4)
    (camera : FixedCamera)
(* runtime, math/rand, fmt, log *)
| LockOSThread
| RandFloat64
| Printf (text : string)
| LogFatal (err : string).

Definition trace : Type := list call.

(* ================================================================== *)
(** * What the outside world answers *)

(** A library call that returns [(value, error)]. *)
Definition answer (A : Type) : Type := (string + A)%type.

(** Answers to the calls of the setup code. *)
Record setup_env : Type := {
  env_glfw_init : option string;
  env_create_window : answer handle;
  env_keyboard_model : handle;
  (** [openvr.Init]: an error, or a system that may be nil. *)
  env_vr_init : answer (option handle);
  (** The n-th call of [GetStringTrackedDeviceProperty], made for
      [property] of [device]: value and status. *)
  env_string_property : nat -> Z -> Z -> string * Z;
  env_init_opengl : answer handle;
  env_basic_shader : answer handle;
  env_load_shader : shader_source -> shader_source -> answer handle;
  env_renderer : handle;
  (** Two [uint32]. *)
  env_recommended_size : Z * Z;
  (** The sample the n-th call of [rand.Float64] returns. *)
  env_rand : nat -> float;
  (** The mesh the n-th call of [fizzle.CreateSphere] builds. *)
  env_sphere : nat -> handle;
  env_eye_transforms : EyeTransforms;
  env_stereo_targets : EyeFramebuffer * EyeFramebuffer;
  env_distortion_lens : handle;
  env_device_renderables : answer handle;
  env_compositor : answer handle
}.

(** What GLFW hands to the callbacks during [glfw.PollEvents]. *)
Inductive window_event : Type :=
| Resized (w h : Z)
| KeyPressed (key : glfw_key)
| CloseRequested.

(** Answers to the calls of one iteration of the frame loop. *)
Record frame_env : Type := {
  window_events : list window_event;
  vr_events : list VREvent;
  (** After [WaitGetPoses]: is the pose of the headset valid, and the
      pose [GetRenderPose] returns. *)
  pose_valid : bool;
  render_pose : TrackedDevicePose
}.

(* ================================================================== *)
(** * Setup: errors and a trace *)

Inductive outcome (A : Type) : Type :=
| Ok (a : A)
| Error (err : string)
| Panic (msg : string).
Arguments Ok {A} a.
Arguments Error {A} err.
Arguments Panic {A} msg.

Definition Setup (A : Type) : Type := (outcome A * trace)%type.

Definition sret {A} (a : A) : Setup A := (Ok a, []).

Definition sbind {A B} (m : Setup A) (k : A -> Setup B) : Setup B :=
  match m with
  | (Ok a, t) => let '(r, t') := k a in (r, t ++ t')
  | (Error e, t) => (Error e, t)
  | (Panic p, t) => (Panic p, t)
  end.

(** A call that cannot fail, and what it returns. *)
Definition perform {A} (c : call) (a : A) : Setup A := (Ok a, [c]).

(** A call that returns [(value, err)], followed by
    [if err != nil { return nil, err }]. *)
Definition attempt {A} (c : call) (r : answer A) : Setup A :=
  match r with
  | inl e => (Error e, [c])
  | inr a => (Ok a, [c])
  end.

Declare Scope setup_scope.
Delimit Scope setup_scope with setup.
Notation "x <- m ;; k" := (sbind m (fun x => k))
  (at level 61, m at next level, right associativity) : setup_scope.
Notation "' pat <- m ;; k" :=
  (sbind m (fun x => match x with pat => k end))
  (at level 61, pat pattern, m at next level, right associativity)
  : setup_scope.
Notation "m ;; k" := (sbind m (fun _ => k))
  (at level 61, right associativity) : setup_scope.

(** [%d] of an integer, and the line feed. *)
Definition dec (z : Z) : string :=
  DecimalString.NilZero.string_of_int (Z.to_int z).
Definition nl : string := String (ascii_of_nat 10) EmptyString.

Local Open Scope string_scope.

Section Program.

Context {L : Library}.

Section Setup.

Variable env : setup_env.

Local Open Scope setup_scope.

(** The hints are kept in a Go map, whose iteration order is not fixed;
    they are listed in the order of the source text. *)
Definition newWindow (width height : Z) (title : string) : Setup window :=
  attempt GlfwInit
    (match env_glfw_init env with Some e => inl e | None => inr tt end) ;;
  perform (WindowHint Samples (HintInt 4)) tt ;;
  perform (WindowHint ContextVersionMajor (HintInt 3)) tt ;;
  perform (WindowHint ContextVersionMinor (HintInt 3)) tt ;;
  perform (WindowHint OpenGLForwardCompatible GlfwTrue) tt ;;
  perform (WindowHint OpenGLProfile OpenGLCoreProfile) tt ;;
  glwin <- attempt (CreateWindow width height title) (env_create_window env) ;;
  let win := {| window.Window :=
                  {| win_handle := glwin; should_close := false |};
                window.width := width;
                window.height := height;
                window.title := "" |} in
  perform SetSizeCallback tt ;;
  perform MakeContextCurrent tt ;;
  perform (SwapInterval 0) tt ;;
  sret win.

(** [query] counts the calls of [GetStringTrackedDeviceProperty] made
    before this one. *)
Definition deviceProperty (vr : vrSystem) (query : nat)
    (device property : Z) : Setup string :=
  let '(val, status) :=
    env_string_property env query TrackedDeviceIndexHmd
      PropTrackingSystemNameString in
  perform (GetStringTrackedDeviceProperty TrackedDeviceIndexHmd
          PropTrackingSystemNameString) tt ;;
  if negb (status =? TrackedPropSuccess)%Z then
    (Error ("Couldn't get property " ++ dec property ++
            " from device " ++ dec device), [])
  else sret val.

Definition newVR : Setup vrSystem :=
  vrs <- attempt VRInit (env_vr_init env) ;;
  match vrs with
  | None => (Panic "BUG", [])
  | Some sys =>
      let vr := {| System := sys |} in
      name <- deviceProperty vr 0 TrackedDeviceIndexHmd
                PropTrackingSystemNameString ;;
      dsn <- deviceProperty vr 1 TrackedDeviceIndexHmd
               PropSerialNumberString ;;
      perform (Printf ("Connected to " ++ name ++ " " ++ dsn ++ nl)) tt ;;
      sret vr
  end.

Definition newShaders : Setup (handle * handle * handle) :=
  sb <- attempt CreateBasicShader (env_basic_shader env) ;;
  sr <- attempt (LoadShaderProgram ShaderRenderModelV ShaderRenderModelF)
          (env_load_shader env ShaderRenderModelV ShaderRenderModelF) ;;
  ls <- attempt (LoadShaderProgram ShaderLensDistortionV ShaderLensDistortionF)
          (env_load_shader env ShaderLensDistortionV ShaderLensDistortionF) ;;
  sret (sb, sr, ls).

(** One star: the body of the loop of [newStarfield] at index [i]. *)
Definition newStar (redMaterial : Material) (maxX maxY maxZ : float)
    (i : nat) : Setup Renderable :=
  let two := Float.Fin 2 0 in
  let b64 := Float.binary64 in
  rx <- perform RandFloat64 (env_rand env (3 * i)) ;;
  let x := Float.sub b64 (Float.mul b64 rx maxX) (Float.div b64 maxX two) in
  ry <- perform RandFloat64 (env_rand env (3 * i + 1)) ;;
  let y := Float.sub b64 (Float.mul b64 ry maxY) (Float.div b64 maxY two) in
  rz <- perform RandFloat64 (env_rand env (3 * i + 2)) ;;
  let z := Float.sub b64 (Float.mul b64 rz maxZ) (Float.div b64 maxZ two) in
  mesh <- perform (CreateSphere (Float.lit Float.binary32 1 10) 5 5)
            (env_sphere env i) ;;
  sret {| Mesh := mesh;
          RenderableMaterial := Some redMaterial;
          Location := (Float.to32 x, Float.to32 y, Float.to32 z) |}.

(** [for i := 0; i < stars; i++]: [n] iterations are left, the next index
    is [i]. *)
Fixpoint newStars (redMaterial : Material) (maxX maxY maxZ : float)
    (i n : nat) : Setup (list Renderable) :=
  match n with
  | O => sret []
  | S n' =>
      r <- newStar redMaterial maxX maxY maxZ i ;;
      rs <- newStars redMaterial maxX maxY maxZ (S i) n' ;;
      sret (r :: rs)
  end.

Definition newStarfield : Setup starfield :=
  win <- newWindow 1280 720 "starfield" ;;
  kbModel <- perform (NewKeyboardModel (win_handle (window.Window win)))
               (env_keyboard_model env) ;;
  perform (BindTrigger KeyEscape) tt ;;
  perform SetupCallbacks tt ;;
  vr <- newVR ;;
  gl <- attempt InitOpenGL (env_init_opengl env) ;;
  perform (SetGraphics gl) tt ;;
  '(sb, sm, sl) <- newShaders ;;
  renderer <- perform (NewForwardRenderer gl) (env_renderer env) ;;
  '(width, height) <- perform GetRecommendedRenderTargetSize
                        (env_recommended_size env) ;;
  perform (ChangeResolution (int32 width) (int32 width)) tt ;;
  let dir := (Float.lit Float.binary32 1 1,
              Float.lit Float.binary32 (-1) 2,
              Float.lit Float.binary32 (-1) 1) in
  perform (NewDirectionalLight dir) tt ;;
  let light := {| Direction := dir;
                  DiffuseIntensity := Float.lit Float.binary32 70 100;
                  SpecularIntensity := Float.lit Float.binary32 10 100;
                  AmbientIntensity := Float.lit Float.binary32 3 10 |} in
  perform (SetActiveLight 0 light) tt ;;
  perform NewMaterial tt ;;
  let one := Float.lit Float.binary32 1 1 in
  let redMaterial := {| Shader := sb;
                        DiffuseColor := [one; one; one; one];
                        Shininess := Float.lit Float.binary32 10 1 |} in
  let stars := 1000%nat in
  let maxX := Float.lit Float.binary64 10 1 in
  let maxY := Float.lit Float.binary64 10 1 in
  let maxZ := Float.lit Float.binary64 10 1 in
  renderables <- newStars redMaterial maxX maxY maxZ 0 stars ;;
  eyeTransforms <- perform (GetEyeTransforms (Float.lit Float.binary32 1 10)
                           (Float.lit Float.binary32 30 1))
                     (env_eye_transforms env) ;;
  '(eyeLeft, eyeRight) <- perform (CreateStereoRenderTargets width height)
                            (env_stereo_targets env) ;;
  distortionLens <- perform
                      (CreateDistortionLens (System vr) sl eyeLeft eyeRight)
                      (env_distortion_lens env) ;;
  deviceRenderables <- attempt (CreateDeviceRenderables (System vr) sm)
                         (env_device_renderables env) ;;
  vrCompositor <- attempt GetCompositor (env_compositor env) ;;
  sret {| app_window := win;
          app_vrSystem := vr;
          gl := gl;
          height := height;
          width := width;
          eyeLeft := eyeLeft;
          eyeRight := eyeRight;
          eyeTransforms := eyeTransforms;
          distortionLens := distortionLens;
          kbModel := kbModel;
          vrCompositor := vrCompositor;
          hmdPose := Mat4_zero;
          hmdLoc := Vec3_zero;
          renderer := renderer;
          deviceRenderables := deviceRenderables;
          renderables := renderables |}.

End Setup.

(* ------------------------------------------------------------------ *)
(** * The frame loop: the [starfield] as state, and a trace *)

Definition M (A : Type) : Type := starfield -> A * starfield * trace.

Definition ret {A} (x : A) : M A := fun a => (x, a, []).

Definition bind {A B} (m : M A) (k : A -> M B) : M B :=
  fun a =>
    let '(x, a1, t1) := m a in
    let '(y, a2, t2) := k x a1 in
    (y, a2, (t1 ++ t2)%list).

Definition emit (c : call) : M unit := fun a => (tt, a, [c]).
Definition get : M starfield := fun a => (a, a, []).
Definition modify (f : starfield -> starfield) : M unit :=
  fun a => (tt, f a, []).

Definition state_of {A} (r : A * starfield * trace) : starfield :=
  snd (fst r).
Definition trace_of {A} (r : A * starfield * trace) : trace := snd r.

Declare Scope frame_scope.
Delimit Scope frame_scope with frame.
Notation "x <- m ;; k" := (bind m (fun x => k))
  (at level 61, m at next level, right associativity) : frame_scope.
Notation "m ;; k" := (bind m (fun _ => k))
  (at level 61, right associativity) : frame_scope.

(** Assignments to fields of the app and of its window. *)
Definition set_window (w : window) (a : starfield) : starfield :=
  {| app_window := w;
     app_vrSystem := app_vrSystem a;
     gl := gl a;
     height := height a;
     width := width a;
     eyeLeft := eyeLeft a;
     eyeRight := eyeRight a;
     eyeTransforms := eyeTransforms a;
     distortionLens := distortionLens a;
     kbModel := kbModel a;
     vrCompositor := vrCompositor a;
     hmdPose := hmdPose a;
     hmdLoc := hmdLoc a;
     renderer := renderer a;
     deviceRenderables := deviceRenderables a;
     renderables := renderables a |}.

Definition set_hmdPose (m : Mat4) (a : starfield) : starfield :=
  {| app_window := app_window a;
     app_vrSystem := app_vrSystem a;
     gl := gl a;
     height := height a;
     width := width a;
     eyeLeft := eyeLeft a;
     eyeRight := eyeRight a;
     eyeTransforms := eyeTransforms a;
     distortionLens := distortionLens a;
     kbModel := kbModel a;
     vrCompositor := vrCompositor a;
     hmdPose := m;
     hmdLoc := hmdLoc a;
     renderer := renderer a;
     deviceRenderables := deviceRenderables a;
     renderables := renderables a |}.

Definition set_hmdLoc (v : Vec3) (a : starfield) : starfield :=
  {| app_window := app_window a;
     app_vrSystem := app_vrSystem a;
     gl := gl a;
     height := height a;
     width := width a;
     eyeLeft := eyeLeft a;
     eyeRight := eyeRight a;
     eyeTransforms := eyeTransforms a;
     distortionLens := distortionLens a;
     kbModel := kbModel a;
     vrCompositor := vrCompositor a;
     hmdPose := hmdPose a;
     hmdLoc := v;
     renderer := renderer a;
     deviceRenderables := deviceRenderables a;
     renderables := renderables a |}.

(** The size callback installed by [newWindow]. *)
Definition on_size (width height : Z) (win : window) : window :=
  {| window.Window := window.Window win;
     window.width := width;
     window.height := height;
     window.title := window.title win |}.

(** [SetShouldClose(value)] on the window, as GLFW carries it out. *)
Definition store_should_close (value : bool) (win : window) : window :=
  {| window.Window :=
       {| win_handle := win_handle (window.Window win);
          should_close := value |};
     window.width := window.width win;
     window.height := window.height win;
     window.title := window.title win |}.

Local Open Scope frame_scope.

(** [a.window.ShouldClose()]. *)
Definition windowShouldClose : M bool :=
  emit ShouldClose ;;
  a <- get ;;
  ret (should_close (window.Window (app_window a))).

(** The trigger bound to the escape key by [newStarfield]. *)
Definition on_escape : M unit :=
  emit (SetShouldClose true) ;;
  modify (fun a => set_window (store_should_close true (app_window a)) a).

(** One event of the window as [glfw.PollEvents] dispatches it: a new
    size to the size callback, a key press to the trigger bound to that
    key, a close request to the flag of the window. *)
Definition dispatch (ev : window_event) : M unit :=
  match ev with
  | Resized w h =>
      modify (fun a => set_window (on_size w h (app_window a)) a)
  | KeyPressed KeyEscape => on_escape
  | KeyPressed (KeyOther _) => ret tt
  | CloseRequested =>
      modify (fun a => set_window (store_should_close true (app_window a)) a)
  end.

Fixpoint for_each {A} (l : list A) (body : A -> M unit) : M unit :=
  match l with
  | [] => ret tt
  | x :: tl => body x ;; for_each tl body
  end.

(** The [switch] on the event type in [handleInput]. *)
Definition logEvent (event : VREvent) : M unit :=
  let idx := dec (TrackedDeviceIndex event) in
  if (EventType event =? VREventTrackedDeviceActivated)%Z then
    emit (Printf ("Device " ++ idx ++ " attached." ++ nl))
  else if (EventType event =? VREventTrackedDeviceDeactivated)%Z then
    emit (Printf ("Device " ++ idx ++ " detached." ++ nl))
  else if (EventType event =? VREventTrackedDeviceUpdated)%Z then
    emit (Printf ("Device " ++ idx ++ " updated." ++ nl))
  else ret tt.

(** [for a.vrSystem.PollNextEvent(&event) { ... }] over the events the
    runtime has queued: the last poll finds the queue empty. *)
Fixpoint pollEvents (queue : list VREvent) : M unit :=
  match queue with
  | [] => emit PollNextEvent
  | event :: rest =>
      emit PollNextEvent ;; logEvent event ;; pollEvents rest
  end.

Definition handleInput (f : frame_env) : M unit :=
  emit PollEvents ;;
  for_each (window_events f) dispatch ;;
  emit CheckKeyPresses ;;
  pollEvents (vr_events f).

Definition renderScene (eye : Z) : M unit :=
  emit (Clear (Z.lor COLOR_BUFFER_BIT DEPTH_BUFFER_BIT)) ;;
  emit (Enable DEPTH_TEST) ;;
  a <- get ;;
  let '(perspective, view, camera) :=
    if (eye =? EyeLeft)%Z then
      let view := Mat4_Mul4 (PositionLeft (eyeTransforms a)) (hmdPose a) in
      (ProjectionLeft (eyeTransforms a), view,
       {| View := view; Position := hmdLoc a |})
    else
      let view := Mat4_Mul4 (PositionRight (eyeTransforms a)) (hmdPose a) in
      (ProjectionRight (eyeTransforms a), view,
       {| View := view; Position := hmdLoc a |}) in
  for_each (renderables a)
    (fun obj => emit (DrawRenderable obj None perspective view camera)) ;;
  emit (RenderDevices (vrCompositor a) perspective view camera).

Definition renderStereoTargets : M unit :=
  a <- get ;;
  let w := int32 (width a) in
  let h := int32 (height a) in
  emit (Enable CULL_FACE) ;;
  emit (ClearColor (Float.lit Float.binary32 15 100)
          (Float.lit Float.binary32 15 100)
          (Float.lit Float.binary32 18 100)
          (Float.lit Float.binary32 1 1)) ;;
  (* left eye *)
  emit (Enable MULTISAMPLE) ;;
  emit (BindFramebuffer FRAMEBUFFER (RenderFramebuffer (eyeLeft a))) ;;
  emit (Viewport 0 0 w h) ;;
  renderScene EyeLeft ;;
  emit (BindFramebuffer FRAMEBUFFER 0) ;;
  emit (Disable MULTISAMPLE) ;;
  emit (BindFramebuffer READ_FRAMEBUFFER (RenderFramebuffer (eyeLeft a))) ;;
  emit (BindFramebuffer DRAW_FRAMEBUFFER (ResolveFramebuffer (eyeLeft a))) ;;
  emit (BlitFramebuffer 0 0 w h 0 0 w h COLOR_BUFFER_BIT LINEAR) ;;
  emit (BindFramebuffer READ_FRAMEBUFFER 0) ;;
  emit (BindFramebuffer DRAW_FRAMEBUFFER 0) ;;
  (* right eye *)
  emit (Enable MULTISAMPLE) ;;
  emit (BindFramebuffer FRAMEBUFFER (RenderFramebuffer (eyeRight a))) ;;
  emit (Viewport 0 0 w h) ;;
  renderScene EyeRight ;;
  emit (BindFramebuffer FRAMEBUFFER 0) ;;
  emit (Disable MULTISAMPLE) ;;
  emit (BindFramebuffer READ_FRAMEBUFFER (RenderFramebuffer (eyeRight a))) ;;
  emit (BindFramebuffer DRAW_FRAMEBUFFER (ResolveFramebuffer (eyeRight a))) ;;
  emit (BlitFramebuffer 0 0 w h 0 0 w h COLOR_BUFFER_BIT LINEAR) ;;
  emit (BindFramebuffer READ_FRAMEBUFFER 0) ;;
  emit (BindFramebuffer DRAW_FRAMEBUFFER 0).

Definition renderFrame (f : frame_env) : M unit :=
  renderStereoTargets ;;
  a <- get ;;
  emit (LensRender (int32 (width a)) (int32 (height a))) ;;
  emit (Submit EyeLeft (uint32 (ResolveTexture (eyeLeft a)))) ;;
  emit (Submit EyeRight (uint32 (ResolveTexture (eyeRight a)))) ;;
  emit SwapBuffers ;;
  emit (WaitGetPoses false) ;;
  emit (IsPoseValid TrackedDeviceIndexHmd) ;;
  if pose_valid f then
    emit (GetRenderPose TrackedDeviceIndexHmd) ;;
    let pose := render_pose f in
    modify (set_hmdPose
              (Mat4_Inv (Mat34ToMat4 (DeviceToAbsoluteTracking pose)))) ;;
    modify (fun a => set_hmdLoc
              (assign (hmdLoc a) 0
                 (index (DeviceToAbsoluteTracking pose) 9)) a) ;;
    modify (fun a => set_hmdLoc
              (assign (hmdLoc a) 1
                 (index (DeviceToAbsoluteTracking pose) 10)) a) ;;
    modify (fun a => set_hmdLoc
              (assign (hmdLoc a) 2
                 (index (DeviceToAbsoluteTracking pose) 11)) a)
  else ret tt.

(** How a run of the loop over a finite supply of frames ends: the loop
    was left, or the supply ran out with the window still open. *)
Inductive ending : Type :=
| Closed
| StillOpen.

(** [for !a.window.ShouldClose() { a.handleInput(); a.renderFrame() }] *)
Fixpoint run (frames : list frame_env) : M ending :=
  closing <- windowShouldClose ;;
  if closing then ret Closed
  else
    match frames with
    | [] => ret StillOpen
    | f :: rest => handleInput f ;; renderFrame f ;; run rest
    end.

(** [init] pins the thread; [main] sets up, then runs; an error of the
    setup is fatal. *)
Definition main (env : setup_env) (frames : list frame_env)
  : option ending * trace :=
  match newStarfield env with
  | (Ok app, t) =>
      let '(e, _, t') := run frames app in
      (Some e, (LockOSThread :: t ++ t')%list)
  | (Error err, t) => (None, (LockOSThread :: t ++ [LogFatal err])%list)
  | (Panic _, t) => (None, LockOSThread :: t)
  end.

End Program.

(* ================================================================== *)
(** * Reading traces and states

    Names for what the properties below speak about: kinds of calls, the
    shape of one eye's pass, the state a frame leaves behind, the number
    of iterations a run of the loop makes. *)

Local Open Scope list_scope.

(** ** Kinds of calls *)

(** The calls [handleInput] can make; the only write to the close flag
    among them sets it. *)
Definition is_input_call (c : call) : bool :=
  match c with
  | PollEvents | CheckKeyPresses | PollNextEvent | Printf _
  | SetShouldClose true => true
  | _ => false
  end.

(** The calls [renderStereoTargets] can make. *)
Definition is_render_call (c : call) : bool :=
  match c with
  | Enable _ | Disable _ | ClearColor _ _ _ _ | Clear _
  | BindFramebuffer _ _ | Viewport _ _ _ _
  | BlitFramebuffer _ _ _ _ _ _ _ _ _ _
  | DrawRenderable _ _ _ _ _ | RenderDevices _ _ _ _ => true
  | _ => false
  end.

(** Submission to the compositor, the buffer swap and the wait for
    poses. *)
Definition is_pacing (c : call) : bool :=
  match c with
  | Submit _ _ | SwapBuffers | WaitGetPoses _ => true
  | _ => false
  end.

Definition is_should_close (c : call) : bool :=
  match c with ShouldClose => true | _ => false end.

Definition is_lens_render (c : call) : bool :=
  match c with LensRender _ _ => true | _ => false end.

Definition is_change_resolution (c : call) : bool :=
  match c with ChangeResolution _ _ => true | _ => false end.

Definition is_create_targets (c : call) : bool :=
  match c with CreateStereoRenderTargets _ _ => true | _ => false end.

Definition is_sizing (c : call) : bool :=
  is_change_resolution c || is_create_targets c.

Definition is_property_query (c : call) : bool :=
  match c with GetStringTrackedDeviceProperty _ _ => true | _ => false end.

(** The calls of the loop that creates the stars. *)
Definition is_star_call (c : call) : bool :=
  match c with
  | RandFloat64 | CreateSphere _ _ _ => true
  | _ => false
  end.

(** Every call but a [SetShouldClose(false)]. *)
Definition never_reopens (c : call) : bool :=
  match c with
  | SetShouldClose false => false
  | _ => true
  end.

(** The renderables drawn, in order, each with the binder it was drawn
    with. *)
Definition drawn (t : trace) : list (Renderable * option handle) :=
  flat_map (fun c => match c with
                     | DrawRenderable r binder _ _ _ => [(r, binder)]
                     | _ => []
                     end) t.

(** ** The pass of one eye

    What the driver issues for an eye, as a function of what may differ
    between the eyes: the framebuffer bound as target, the projection and
    the view. *)

Definition scene_draws (a : starfield) (perspective view : Mat4) : trace :=
  let camera := {| View := view; Position := hmdLoc a |} in
  [Clear (Z.lor COLOR_BUFFER_BIT DEPTH_BUFFER_BIT); Enable DEPTH_TEST] ++
  map (fun obj => DrawRenderable obj None perspective view camera)
    (renderables a) ++
  [RenderDevices (vrCompositor a) perspective view camera].

Definition eye_draw_pass (a : starfield) (target : Z)
    (perspective view : Mat4) : trace :=
  [Enable MULTISAMPLE;
   BindFramebuffer FRAMEBUFFER target;
   Viewport 0 0 (int32 (width a)) (int32 (height a))] ++
  scene_draws a perspective view ++
  [BindFramebuffer FRAMEBUFFER 0; Disable MULTISAMPLE].

(** The blit of an eye's multisampled framebuffer into its resolve
    framebuffer. *)
Definition eye_resolve_pass (a : starfield) (eye : EyeFramebuffer) : trace :=
  let w := int32 (width a) in
  let h := int32 (height a) in
  [BindFramebuffer READ_FRAMEBUFFER (RenderFramebuffer eye);
   BindFramebuffer DRAW_FRAMEBUFFER (ResolveFramebuffer eye);
   BlitFramebuffer 0 0 w h 0 0 w h COLOR_BUFFER_BIT LINEAR;
   BindFramebuffer READ_FRAMEBUFFER 0;
   BindFramebuffer DRAW_FRAMEBUFFER 0].

Definition stereo_prologue : trace :=
  [Enable CULL_FACE;
   ClearColor (Float.lit Float.binary32 15 100)
     (Float.lit Float.binary32 15 100)
     (Float.lit Float.binary32 18 100)
     (Float.lit Float.binary32 1 1)].

(** What a frame issues to render both eyes when the head pose is
    [pose] and the head position [loc]: the left eye first, each eye
    into its own target with its own projection and offset. *)
Definition stereo_pass {L : Library} (a : starfield) (pose : Mat4)
    (loc : Vec3) : trace :=
  let et := eyeTransforms a in
  let b := set_hmdLoc loc a in
  stereo_prologue ++
  eye_draw_pass b (RenderFramebuffer (eyeLeft a)) (ProjectionLeft et)
    (Mat4_Mul4 (PositionLeft et) pose) ++
  eye_resolve_pass a (eyeLeft a) ++
  eye_draw_pass b (RenderFramebuffer (eyeRight a)) (ProjectionRight et)
    (Mat4_Mul4 (PositionRight et) pose) ++
  eye_resolve_pass a (eyeRight a).

(** A draw is made with no head pose yet: the view is an eye offset
    times the zero matrix, the camera sits at the zero vector. *)
Definition zero_pose_draw {L : Library} (et : EyeTransforms) (c : call)
  : Prop :=
  match c with
  | DrawRenderable _ _ _ v cam | RenderDevices _ _ v cam =>
      (v = Mat4_Mul4 (PositionLeft et) Mat4_zero \/
       v = Mat4_Mul4 (PositionRight et) Mat4_zero) /\
      cam = {| View := v; Position := Vec3_zero |}
  | _ => True
  end.

(** ** States *)

(** The close flag of the window of the app. *)
Definition closing (a : starfield) : bool :=
  should_close (window.Window (app_window a)).

(** No pose has been stored yet. *)
Definition unset (a : starfield) : Prop :=
  hmdPose a = Mat4_zero /\ hmdLoc a = Vec3_zero.

(** The app once the pose of a frame has been stored. *)
Definition fresh_pose {L : Library} (f : frame_env) (a : starfield)
  : starfield :=
  let m := DeviceToAbsoluteTracking (render_pose f) in
  set_hmdLoc (index m 9, index m 10, index m 11)
    (set_hmdPose (Mat4_Inv (Mat34ToMat4 m)) a).

(** What [renderFrame] issues once both eyes are rendered. *)
Definition frame_tail (f : frame_env) (a : starfield) : trace :=
  [LensRender (int32 (width a)) (int32 (height a));
   Submit EyeLeft (uint32 (ResolveTexture (eyeLeft a)));
   Submit EyeRight (uint32 (ResolveTexture (eyeRight a)));
   SwapBuffers;
   WaitGetPoses false;
   IsPoseValid TrackedDeviceIndexHmd] ++
  (if pose_valid f then [GetRenderPose TrackedDeviceIndexHmd] else []).

(** The submissions, the swap and the wait of one frame. *)
Definition pacing_calls (a : starfield) : trace :=
  [Submit EyeLeft (uint32 (ResolveTexture (eyeLeft a)));
   Submit EyeRight (uint32 (ResolveTexture (eyeRight a)));
   SwapBuffers;
   WaitGetPoses false].

(** ** One iteration of the loop of [run], after its check of the flag *)

Definition after_frame {L : Library} (f : frame_env) (a : starfield)
  : starfield :=
  state_of (renderFrame f (state_of (handleInput f a))).

Definition frame_trace {L : Library} (f : frame_env) (a : starfield)
  : trace :=
  trace_of (handleInput f a) ++
  trace_of (renderFrame f (state_of (handleInput f a))).

(** The number of iterations [run] makes on a supply of frames. *)
Fixpoint iterations {L : Library} (frames : list frame_env) (a : starfield)
  : nat :=
  if closing a then O
  else match frames with
       | [] => O
       | f :: rest => S (iterations rest (after_frame f a))
       end.

(** ** Stars *)

(** The value 10.0 of [maxX], [maxY] and [maxZ]. *)
Definition ten : float := Float.lit Float.binary64 10 1.

(** The position of a star lies within 5 units of the origin on every
    axis. *)
Definition in_cube (r : Renderable) : Prop :=
  let '(x, y, z) := Location r in
  Float.between (-5) 5 x /\ Float.between (-5) 5 y /\ Float.between (-5) 5 z.

(** ** The arithmetic against the specification of the Rocq library

    [SpecFloat] specifies IEEE 754 arithmetic on canonical
    representations; [same] compares values, whatever the
    representation. *)

Definition of_spec (x : SpecFloat.spec_float) : float :=
  match x with
  | SpecFloat.S754_zero _ => Float.zero
  | SpecFloat.S754_infinity s => Float.Inf s
  | SpecFloat.S754_nan => Float.NaN
  | SpecFloat.S754_finite s m e =>
      Float.Fin (if s then Z.neg m else Z.pos m) e
  end.

Definition to_spec (m e : Z) : SpecFloat.spec_float :=
  match m with
  | Z0 => SpecFloat.S754_zero false
  | Zpos p => SpecFloat.S754_finite false p e
  | Zneg p => SpecFloat.S754_finite true p e
  end.

Definition same (x y : float) : bool :=
  match x, y with
  | Float.Fin m1 e1, Float.Fin m2 e2 =>
      let c := Z.min e1 e2 in
      (m1 * 2 ^ (e1 - c) =? m2 * 2 ^ (e2 - c))%Z
  | Float.Inf s, Float.Inf t => Bool.eqb s t
  | Float.NaN, Float.NaN => true
  | _, _ => false
  end.

(** On a pair of [float64], given by significand and exponent: product,
    sum, difference, quotient and the conversions to [float32] agree. *)
Definition agrees (q : Z * Z * Z * Z) : bool :=
  let '(m1, e1, m2, e2) := q in
  let x := Float.Fin m1 e1 in
  let y := Float.Fin m2 e2 in
  let sx := to_spec m1 e1 in
  let sy := to_spec m2 e2 in
  same (Float.mul Float.binary64 x y) (of_spec (SpecFloat.SFmul 53 1024 sx sy))
  && same (Float.add Float.binary64 x y)
       (of_spec (SpecFloat.SFadd 53 1024 sx sy))
  && same (Float.sub Float.binary64 x y)
       (of_spec (SpecFloat.SFsub 53 1024 sx sy))
  && same (Float.div Float.binary64 x y)
       (of_spec (SpecFloat.SFdiv 53 1024 sx sy))
  && same (Float.to32 x)
       (of_spec (SpecFloat.binary_normalize 24 128 m1 e1 false))
  && same (Float.to32 y)
       (of_spec (SpecFloat.binary_normalize 24 128 m2 e2 false)).

(** Values next to 1 and to 10, ties, subnormal numbers, the largest
    finite numbers. *)
Definition arithmetic_samples : list (Z * Z * Z * Z) :=
  [(9007199254740991, -53, 5629499534213120, -49);
   (4503599627370497, -52, 4503599627370499, -52);
   (-6004799503160661, -54, 7205759403792794, -56);
   (4503599627370496, -1074, 4503599627370497, -52);
   (1, -1074, 4503599627370497, -53);
   (3, -1074, 4503599627370496, -53);
   (9007199254740991, 971, 9007199254740991, -52);
   (9007199254740991, 971, 4503599627370496, -51);
   (6755399441055744, -52, -6755399441055745, -52);
   (5, -1074, 3, -1074);
   (7074237752028440, -51, 6121026514868073, -51)]%Z.

(* ================================================================== *)
(** * Sample runs

    A runtime that recommends 1512 x 1680 eye targets, a headset that
    answers every query, and a few frames. *)

Module Sample.

Definition f32 (n d : Z) : float := Float.lit Float.binary32 n d.

(** Stand-ins for the matrix routines: the product of two column-major
    matrices in [float32] arithmetic, the transpose in place of the
    inverse, and the 3x4 pose widened by a last row [0 0 0 1]. *)
Definition entry (m : Mat4) (row col : nat) : float :=
  index m (row + 4 * col).

Definition dot (a b : Mat4) (row col : nat) : float :=
  let term k := Float.mul Float.binary32 (entry a row k) (entry b k col) in
  Float.add Float.binary32
    (Float.add Float.binary32
       (Float.add Float.binary32 (term 0%nat) (term 1%nat)) (term 2%nat))
    (term 3%nat).

Definition mul4 (a b : Mat4) : Mat4 :=
  map (fun i => dot a b (i mod 4) (i / 4)) (seq 0 16).

Definition transpose (m : Mat4) : Mat4 :=
  map (fun i => entry m (i / 4) (i mod 4)) (seq 0 16).

Definition widen (m : Mat34) : Mat4 :=
  [index m 0; index m 4; index m 8; f32 0 1;
   index m 1; index m 5; index m 9; f32 0 1;
   index m 2; index m 6; index m 10; f32 0 1;
   index m 3; index m 7; index m 11; f32 1 1].

Definition library : Library :=
  {| Mat4_Inv := transpose; Mat4_Mul4 := mul4; Mat34ToMat4 := widen |}.

(** The translation by [(x, y, z)], column-major. *)
Definition translation (x y z : float) : Mat4 :=
  [f32 1 1; f32 0 1; f32 0 1; f32 0 1;
   f32 0 1; f32 1 1; f32 0 1; f32 0 1;
   f32 0 1; f32 0 1; f32 1 1; f32 0 1;
   x; y; z; f32 1 1].

Definition transforms : EyeTransforms :=
  {| PositionLeft := translation (f32 32 1000) (f32 0 1) (f32 0 1);
     PositionRight := translation (f32 (-32) 1000) (f32 0 1) (f32 0 1);
     ProjectionLeft := translation (f32 0 1) (f32 0 1) (f32 (-1) 10);
     ProjectionRight := translation (f32 0 1) (f32 0 1) (f32 (-2) 10) |}.

Definition left_eye : EyeFramebuffer :=
  {| RenderFramebuffer := 1; ResolveFramebuffer := 2; ResolveTexture := 3 |}.
Definition right_eye : EyeFramebuffer :=
  {| RenderFramebuffer := 4; ResolveFramebuffer := 5; ResolveTexture := 6 |}.

(** The n-th sample of the random source: a multiple of 1/1024 below 1. *)
Definition rand (n : nat) : float :=
  Float.Fin ((Z.of_nat n * 7919) mod 1024) (-10).

Definition env : setup_env :=
  {| env_glfw_init := None;
     env_create_window := inr 11;
     env_keyboard_model := 12;
     env_vr_init := inr (Some 13);
     env_string_property := fun _ device property =>
       if (property =? PropTrackingSystemNameString)%Z then
         ("lighthouse", TrackedPropSuccess)
       else if (property =? PropSerialNumberString)%Z then
         ("LHR-00000001", TrackedPropSuccess)
       else ("", 1);
     env_init_opengl := inr 14;
     env_basic_shader := inr 15;
     env_load_shader := fun vertex _ =>
       match vertex with
       | ShaderRenderModelV => inr 16
       | _ => inr 17
       end;
     env_renderer := 18;
     env_recommended_size := (1512, 1680);
     env_rand := rand;
     env_sphere := fun n => 100 + Z.of_nat n;
     env_eye_transforms := transforms;
     env_stereo_targets := (left_eye, right_eye);
     env_distortion_lens := 19;
     env_device_renderables := inr 20;
     env_compositor := inr 21 |}.

(** The same runtime with a headset that answers no query. *)
Definition mute_env : setup_env :=
  {| env_glfw_init := None;
     env_create_window := inr 11;
     env_keyboard_model := 12;
     env_vr_init := inr (Some 13);
     env_string_property := fun _ _ _ => ("", 1);
     env_init_opengl := inr 14;
     env_basic_shader := inr 15;
     env_load_shader := fun _ _ => inr 16;
     env_renderer := 18;
     env_recommended_size := (1512, 1680);
     env_rand := rand;
     env_sphere := fun n => 100 + Z.of_nat n;
     env_eye_transforms := transforms;
     env_stereo_targets := (left_eye, right_eye);
     env_distortion_lens := 19;
     env_device_renderables := inr 20;
     env_compositor := inr 21 |}.

(** A small app: two stars, no pose yet. *)
Definition star (mesh : handle) (x y z : float) : Renderable :=
  {| Mesh := mesh;
     RenderableMaterial :=
       Some {| Shader := 15;
               DiffuseColor := [f32 1 1; f32 1 1; f32 1 1; f32 1 1];
               Shininess := f32 10 1 |};
     Location := (x, y, z) |}.

Definition app : starfield :=
  {| app_window :=
       {| window.Window := {| win_handle := 11; should_close := false |};
          window.width := 1280;
          window.height := 720;
          window.title := "" |};
     app_vrSystem := {| System := 13 |};
     gl := 14;
     height := 1680;
     width := 1512;
     eyeLeft := left_eye;
     eyeRight := right_eye;
     eyeTransforms := transforms;
     distortionLens := 19;
     kbModel := 12;
     vrCompositor := 21;
     hmdPose := Mat4_zero;
     hmdLoc := Vec3_zero;
     renderer := 18;
     deviceRenderables := 20;
     renderables := [star 100 (f32 1 1) (f32 2 1) (f32 (-3) 1);
                     star 101 (f32 (-4) 1) (f32 0 1) (f32 5 2)] |}.

(** The app and the trace [newStarfield] gives with this runtime. *)
Definition setup : Setup starfield := newStarfield env.
Definition started : starfield :=
  match fst setup with
  | Ok a => a
  | _ => app
  end.
Definition setup_trace : trace := snd setup.

(** A pose: the identity turned into a 3x4 matrix, 1.5 up. *)
Definition standing : TrackedDevicePose :=
  {| DeviceToAbsoluteTracking :=
       [f32 1 1; f32 0 1; f32 0 1; f32 0 1;
        f32 0 1; f32 1 1; f32 0 1; f32 3 2;
        f32 0 1; f32 0 1; f32 1 1; f32 0 1] |}.

(** A frame in which tracking is lost. *)
Definition lost : frame_env :=
  {| window_events := [];
     vr_events := [];
     pose_valid := false;
     render_pose := standing |}.

(** A frame with a valid pose and a controller that shows up. *)
Definition tracked : frame_env :=
  {| window_events := [Resized 800 600];
     vr_events := [{| EventType := VREventTrackedDeviceActivated;
                      TrackedDeviceIndex := 1 |}];
     pose_valid := true;
     render_pose := standing |}.

(** A frame in which the escape key is pressed. *)
Definition escape : frame_env :=
  {| window_events := [KeyPressed (KeyOther 65); KeyPressed KeyEscape];
     vr_events := [];
     pose_valid := false;
     render_pose := standing |}.

End Sample.


(* ================================================================== *)
(** * Further readings of traces and states *)

(** ** Setup *)

(** What [newVR] asks [deviceProperty] for at its n-th call: the name
    of the tracking system first, then the serial number. *)
Definition requested (n : nat) : Z * Z :=
  match n with
  | O => (TrackedDeviceIndexHmd, PropTrackingSystemNameString)
  | S _ => (TrackedDeviceIndexHmd, PropSerialNumberString)
  end.

Definition error_of {A} (r : answer A) : option string :=
  match r with
  | inl e => Some e
  | inr _ => None
  end.

(** The error the setup gets from a call, if the call fails, when
    [queries] property queries were made before it; for a property query
    it is the error [deviceProperty] makes up, which names what its
    caller asked for. *)
Definition reported (env : setup_env) (queries : nat) (c : call)
  : option string :=
  match c with
  | GlfwInit => env_glfw_init env
  | CreateWindow _ _ _ => error_of (env_create_window env)
  | VRInit => error_of (env_vr_init env)
  | GetStringTrackedDeviceProperty device property =>
      if (snd (env_string_property env queries device property)
          =? TrackedPropSuccess)%Z
      then None
      else Some ("Couldn't get property " ++ dec (snd (requested queries)) ++
                 " from device " ++ dec (fst (requested queries)))%string
  | InitOpenGL => error_of (env_init_opengl env)
  | CreateBasicShader => error_of (env_basic_shader env)
  | LoadShaderProgram vertex fragment =>
      error_of (env_load_shader env vertex fragment)
  | CreateDeviceRenderables _ _ => error_of (env_device_renderables env)
  | GetCompositor => error_of (env_compositor env)
  | _ => None
  end.

(** The first call of a trace that fails: its error and the calls made
    after it. *)
Fixpoint first_failure (env : setup_env) (queries : nat) (t : trace)
  : option (string * trace) :=
  match t with
  | [] => None
  | c :: rest =>
      match reported env queries c with
      | Some e => Some (e, rest)
      | None =>
          first_failure env
            (if is_property_query c then S queries else queries) rest
      end
  end.

(** The calls of the setup up to [openvr.Init], with the window
    [glwin]. *)
Definition calls_until_vr_init (glwin : handle) : trace :=
  [GlfwInit;
   WindowHint Samples (HintInt 4);
   WindowHint ContextVersionMajor (HintInt 3);
   WindowHint ContextVersionMinor (HintInt 3);
   WindowHint OpenGLForwardCompatible GlfwTrue;
   WindowHint OpenGLProfile OpenGLCoreProfile;
   CreateWindow 1280 720 "starfield";
   SetSizeCallback;
   MakeContextCurrent;
   SwapInterval 0;
   NewKeyboardModel glwin;
   BindTrigger KeyEscape;
   SetupCallbacks;
   VRInit].

(** No call that satisfies [q] comes before the first call that
    satisfies [p]. *)
Fixpoint preceded (p q : call -> bool) (t : trace) : bool :=
  match t with
  | [] => true
  | c :: rest => if p c then true else negb (q c) && preceded p q rest
  end.

Definition is_make_current (c : call) : bool :=
  match c with MakeContextCurrent => true | _ => false end.

Definition is_vr_init (c : call) : bool :=
  match c with VRInit => true | _ => false end.

(** The calls into OpenGL, fizzle and its renderers. *)
Definition is_graphics_call (c : call) : bool :=
  match c with
  | InitOpenGL | SetGraphics _ | CreateBasicShader | LoadShaderProgram _ _
  | NewForwardRenderer _ | ChangeResolution _ _ | NewDirectionalLight _
  | SetActiveLight _ _ | NewMaterial | CreateSphere _ _ _
  | CreateStereoRenderTargets _ _ | CreateDistortionLens _ _ _ _
  | CreateDeviceRenderables _ _ | LensRender _ _ => true
  | _ => is_render_call c
  end.

(** The calls that need the connection to the VR runtime. *)
Definition is_vr_call (c : call) : bool :=
  match c with
  | GetStringTrackedDeviceProperty _ _ | PollNextEvent
  | GetRecommendedRenderTargetSize | GetEyeTransforms _ _
  | CreateDistortionLens _ _ _ _ | CreateDeviceRenderables _ _
  | GetCompositor | Submit _ _ | WaitGetPoses _ | IsPoseValid _
  | GetRenderPose _ | RenderDevices _ _ _ _ => true
  | _ => false
  end.

(** The calls only the frame loop makes. *)
Definition is_loop_call (c : call) : bool :=
  match c with
  | ShouldClose | PollEvents | CheckKeyPresses | PollNextEvent
  | SetShouldClose _ | LensRender _ _ | IsPoseValid _ | GetRenderPose _ =>
      true
  | _ => is_render_call c || is_pacing c
  end.

Definition is_printf (c : call) : bool :=
  match c with Printf _ => true | _ => false end.

Definition is_rand (c : call) : bool :=
  match c with RandFloat64 => true | _ => false end.

Definition is_create_sphere (c : call) : bool :=
  match c with CreateSphere _ _ _ => true | _ => false end.

(** A coordinate of a star from a sample of the random source:
    [float32((r * 10.0) - 10.0/2)]. *)
Definition coordinate (r : float) : float :=
  Float.to32
    (Float.sub Float.binary64 (Float.mul Float.binary64 r ten)
       (Float.div Float.binary64 ten (Float.Fin 2 0))).

(** The position of the star of index [i]. *)
Definition star_location (env : setup_env) (i : nat) : Vec3 :=
  (coordinate (env_rand env (3 * i)),
   coordinate (env_rand env (3 * i + 1)),
   coordinate (env_rand env (3 * i + 2))).

(** The material every star gets: white, shininess 10, with shader
    [sb]. *)
Definition star_material (sb : handle) : Material :=
  {| Shader := sb;
     DiffuseColor := [Float.lit Float.binary32 1 1;
                      Float.lit Float.binary32 1 1;
                      Float.lit Float.binary32 1 1;
                      Float.lit Float.binary32 1 1];
     Shininess := Float.lit Float.binary32 10 1 |}.

(** The star of index [i], with shader [sb]. *)
Definition star (env : setup_env) (sb : handle) (i : nat) : Renderable :=
  {| Mesh := env_sphere env i;
     RenderableMaterial := Some (star_material sb);
     Location := star_location env i |}.

(** The calls that create one star. *)
Definition star_calls : trace :=
  [RandFloat64; RandFloat64; RandFloat64;
   CreateSphere (Float.lit Float.binary32 1 10) 5 5].

(** The stars and the trace the loop of [newStarfield] gives. *)
Definition star_run (env : setup_env) (sb : handle)
    (rs : list Renderable) (ts : trace) : Prop :=
  rs = map (star env sb) (seq 0 1000) /\
  ts = flat_map (fun _ => star_calls) (seq 0 1000).

(** The calls that hand a shader to what uses it. *)
Definition is_shader_use (c : call) : bool :=
  match c with
  | CreateDistortionLens _ _ _ _ | CreateDeviceRenderables _ _ => true
  | _ => false
  end.


(** The setup environment with other answers to the property queries. *)
Definition with_string_property (p : nat -> Z -> Z -> string * Z)
    (env : setup_env) : setup_env :=
  {| env_glfw_init := env_glfw_init env;
     env_create_window := env_create_window env;
     env_keyboard_model := env_keyboard_model env;
     env_vr_init := env_vr_init env;
     env_string_property := p;
     env_init_opengl := env_init_opengl env;
     env_basic_shader := env_basic_shader env;
     env_load_shader := env_load_shader env;
     env_renderer := env_renderer env;
     env_recommended_size := env_recommended_size env;
     env_rand := env_rand env;
     env_sphere := env_sphere env;
     env_eye_transforms := env_eye_transforms env;
     env_stereo_targets := env_stereo_targets env;
     env_distortion_lens := env_distortion_lens env;
     env_device_renderables := env_device_renderables env;
     env_compositor := env_compositor env |}.

(** A headset that answers the first query and no other. *)
Definition answers_once (n : nat) (device property : Z) : string * Z :=
  match n with
  | O => ("lighthouse"%string, TrackedPropSuccess)
  | S _ => (""%string, 1)
  end.

(** ** Input *)

(** An event that asks the window to close. *)
Definition is_close_event (ev : window_event) : bool :=
  match ev with
  | KeyPressed KeyEscape | CloseRequested => true
  | _ => false
  end.

Definition is_escape (ev : window_event) : bool :=
  match ev with
  | KeyPressed KeyEscape => true
  | _ => false
  end.

(** The size the last resize of a list of events leaves, [size] if there
    is none. *)
Fixpoint last_size (evs : list window_event) (size : Z * Z) : Z * Z :=
  match evs with
  | [] => size
  | Resized w h :: rest => last_size rest (w, h)
  | _ :: rest => last_size rest size
  end.

Definition window_size (a : starfield) : Z * Z :=
  (window.width (app_window a), window.height (app_window a)).

(** The line [handleInput] prints for an event of the runtime. *)
Definition event_line (event : VREvent) : list string :=
  let idx := dec (TrackedDeviceIndex event) in
  if (EventType event =? VREventTrackedDeviceActivated)%Z then
    [("Device " ++ idx ++ " attached." ++ nl)%string]
  else if (EventType event =? VREventTrackedDeviceDeactivated)%Z then
    [("Device " ++ idx ++ " detached." ++ nl)%string]
  else if (EventType event =? VREventTrackedDeviceUpdated)%Z then
    [("Device " ++ idx ++ " updated." ++ nl)%string]
  else [].

(** ** Frames *)

Definition is_draw (c : call) : bool :=
  match c with DrawRenderable _ _ _ _ _ => true | _ => false end.

(** The draws of the stars for one eye, with the view [view] and the
    camera at [loc]. *)
Definition star_draws (a : starfield) (perspective view : Mat4) (loc : Vec3)
  : trace :=
  map (fun obj => DrawRenderable obj None perspective view
                    {| View := view; Position := loc |})
    (renderables a).

Definition is_viewport (c : call) : bool :=
  match c with Viewport _ _ _ _ => true | _ => false end.

Definition is_blit (c : call) : bool :=
  match c with BlitFramebuffer _ _ _ _ _ _ _ _ _ _ => true | _ => false end.

(** The calls of [renderScene]. *)
Definition is_scene_call (c : call) : bool :=
  match c with
  | Clear _ | Enable _ | DrawRenderable _ _ _ _ _ | RenderDevices _ _ _ _ =>
      true
  | _ => false
  end.

(** The viewports and the blits of a frame for eye targets of [w] by
    [h]. *)
Definition eye_viewports (w h : Z) : trace :=
  [Viewport 0 0 w h; Viewport 0 0 w h].

Definition eye_blits (w h : Z) : trace :=
  [BlitFramebuffer 0 0 w h 0 0 w h COLOR_BUFFER_BIT LINEAR;
   BlitFramebuffer 0 0 w h 0 0 w h COLOR_BUFFER_BIT LINEAR].

(** What the frames leave alone: everything of the app but its window,
    the head pose and the head position. *)
Definition same_scene (a b : starfield) : Prop :=
  app_vrSystem b = app_vrSystem a /\
  gl b = gl a /\
  height b = height a /\
  width b = width a /\
  eyeLeft b = eyeLeft a /\
  eyeRight b = eyeRight a /\
  eyeTransforms b = eyeTransforms a /\
  distortionLens b = distortionLens a /\
  kbModel b = kbModel a /\
  vrCompositor b = vrCompositor a /\
  renderer b = renderer a /\
  deviceRenderables b = deviceRenderables a /\
  renderables b = renderables a.

(** The small sample app with eye targets as wide as a [uint32] can
    say. *)
Definition wide_app : starfield :=
  {| app_window := app_window Sample.app;
     app_vrSystem := app_vrSystem Sample.app;
     gl := gl Sample.app;
     height := 1680;
     width := 4294967295;
     eyeLeft := eyeLeft Sample.app;
     eyeRight := eyeRight Sample.app;
     eyeTransforms := eyeTransforms Sample.app;
     distortionLens := distortionLens Sample.app;
     kbModel := kbModel Sample.app;
     vrCompositor := vrCompositor Sample.app;
     hmdPose := hmdPose Sample.app;
     hmdLoc := hmdLoc Sample.app;
     renderer := renderer Sample.app;
     deviceRenderables := deviceRenderables Sample.app;
     renderables := renderables Sample.app |}.

(* ================================================================== *)
(** * Facts *)

Local Open Scope Z_scope.

(** ** Lists of calls *)

Lemma filter_none (p q : call -> bool) (t : trace) :
  (forall c, q c = true -> p c = false) ->
  Forall (fun c => q c = true) t -> filter p t = [].
Proof.
  intros Hpq Ht. induction Ht as [|c t Hc _ IH]; simpl.
  - reflexivity.
  - rewrite (Hpq c Hc). exact IH.
Qed.

Lemma Forall_map_true {A} (p : call -> bool) (g : A -> call) (l : list A) :
  (forall x, p (g x) = true) -> Forall (fun c => p c = true) (map g l).
Proof. intros H. apply Forall_map, Forall_forall. intros x _. apply H. Qed.

Lemma Forall_true_impl (p q : call -> bool) (t : trace) :
  (forall c, p c = true -> q c = true) ->
  Forall (fun c => p c = true) t -> Forall (fun c => q c = true) t.
Proof. intros Hpq. apply Forall_impl. exact Hpq. Qed.

(** ** Rounding *)

Module FloatFacts.
Import Float.

Lemma rne_cases m sh :
  rne m sh = m / 2 ^ sh \/ rne m sh = m / 2 ^ sh + 1.
Proof.
  unfold rne.
  destruct (_ <? _); [now left|].
  destruct (_ <? _); [now right|].
  destruct (Z.even _); [now left | now right].
Qed.

Lemma rne_exact m sh :
  0 < sh -> m mod 2 ^ sh = 0 -> rne m sh = m / 2 ^ sh.
Proof.
  intros Hsh Hr. unfold rne. rewrite Hr.
  assert (0 < 2 ^ (sh - 1)) by (apply Z.pow_pos_nonneg; lia).
  destruct (0 <? 2 ^ (sh - 1)) eqn:E; [reflexivity|].
  apply Z.ltb_ge in E. lia.
Qed.

Lemma rne_le m sh j : 0 < sh -> m <= j * 2 ^ sh -> rne m sh <= j.
Proof.
  intros Hsh Hle.
  assert (Hp : 0 < 2 ^ sh) by (apply Z.pow_pos_nonneg; lia).
  pose proof (Z.div_mod m (2 ^ sh) ltac:(lia)) as Hdm.
  pose proof (Z.mod_pos_bound m (2 ^ sh) Hp) as Hb.
  destruct (Z.eq_dec (m mod 2 ^ sh) 0) as [Hz|Hnz].
  - rewrite rne_exact by assumption. nia.
  - destruct (rne_cases m sh) as [-> | ->]; nia.
Qed.

Lemma rne_ge m sh j : 0 < sh -> j * 2 ^ sh <= m -> j <= rne m sh.
Proof.
  intros Hsh Hle.
  assert (Hp : 0 < 2 ^ sh) by (apply Z.pow_pos_nonneg; lia).
  pose proof (Z.div_mod m (2 ^ sh) ltac:(lia)) as Hdm.
  pose proof (Z.mod_pos_bound m (2 ^ sh) Hp) as Hb.
  destruct (rne_cases m sh) as [-> | ->]; nia.
Qed.

Lemma pow2_pos e : (0 < pow2 e)%Q.
Proof. unfold pow2. apply Qpower_0_lt. reflexivity. Qed.

Lemma pow2_add a b : (pow2 (a + b) == pow2 a * pow2 b)%Q.
Proof. unfold pow2. apply Qpower_plus. discriminate. Qed.

Lemma pow2_Z z : 0 <= z -> (pow2 z == inject_Z (2 ^ z))%Q.
Proof.
  intros Hz. unfold pow2.
  change 2%Q with (inject_Z 2). symmetry. apply Zpower_Qpower. exact Hz.
Qed.

Lemma pow2_0 : (pow2 0 == 1)%Q.
Proof. reflexivity. Qed.

Lemma pow2_opp e : (pow2 e * pow2 (- e) == 1)%Q.
Proof. rewrite <- pow2_add. replace (e + - e) with 0 by lia. reflexivity. Qed.

Lemma pow2_lt_inv a b : (pow2 a < pow2 b)%Q -> a < b.
Proof. intros H. apply (Qpower_lt_compat_l_inv 2); [exact H | reflexivity]. Qed.

Lemma F2Q_scale m e :
  e <= 0 -> (F2Q m e * inject_Z (2 ^ (- e)) == inject_Z m)%Q.
Proof.
  intros He. unfold F2Q.
  rewrite <- (pow2_Z (- e)) by lia.
  rewrite <- Qmult_assoc, pow2_opp. ring.
Qed.

Lemma F2Q_le_int m e h :
  e <= 0 -> (F2Q m e <= inject_Z h)%Q <-> m <= h * 2 ^ (- e).
Proof.
  intros He.
  assert (Hp : (0 < inject_Z (2 ^ (- e)))%Q).
  { rewrite <- pow2_Z by lia. apply pow2_pos. }
  rewrite Zle_Qle, inject_Z_mult, <- (F2Q_scale m e He).
  split; intros H.
  - apply Qmult_le_compat_r; [exact H | apply Qlt_le_weak, Hp].
  - apply Qmult_le_r in H; assumption.
Qed.

Lemma F2Q_ge_int m e h :
  e <= 0 -> (inject_Z h <= F2Q m e)%Q <-> h * 2 ^ (- e) <= m.
Proof.
  intros He.
  assert (Hp : (0 < inject_Z (2 ^ (- e)))%Q).
  { rewrite <- pow2_Z by lia. apply pow2_pos. }
  rewrite Zle_Qle, inject_Z_mult, <- (F2Q_scale m e He).
  split; intros H.
  - apply Qmult_le_compat_r; [exact H | apply Qlt_le_weak, Hp].
  - apply Qmult_le_r in H; assumption.
Qed.

Lemma F2Q_lt_int m e h :
  e <= 0 -> m < h * 2 ^ (- e) -> (F2Q m e < inject_Z h)%Q.
Proof.
  intros He Hlt.
  assert (Hp : (0 < inject_Z (2 ^ (- e)))%Q).
  { rewrite <- pow2_Z by lia. apply pow2_pos. }
  apply (Qmult_lt_r _ _ _ Hp).
  rewrite (F2Q_scale m e He), <- inject_Z_mult, <- Zlt_Qlt. exact Hlt.
Qed.

Lemma digits_pos_le m : 0 < m -> 2 ^ (digits m - 1) <= m.
Proof.
  intros Hm. unfold digits. rewrite Z.abs_eq by lia.
  replace (Z.log2 m + 1 - 1) with (Z.log2 m) by lia.
  apply Z.log2_spec. exact Hm.
Qed.

Lemma digits_ge_1 m : 1 <= digits m.
Proof. unfold digits. pose proof (Z.log2_nonneg (Z.abs m)). lia. Qed.

Lemma digits_opp m : digits (- m) = digits m.
Proof. unfold digits. now rewrite Z.abs_opp. Qed.

Lemma F2Q_opp m e : (F2Q (- m) e == - F2Q m e)%Q.
Proof. unfold F2Q. rewrite inject_Z_opp. ring. Qed.

(** A non-zero value below [2^k] in magnitude has its leading bit below
    position [k]. *)
Lemma digits_bound_pos m e k :
  0 < m -> (F2Q m e < pow2 k)%Q -> digits m + e <= k.
Proof.
  intros Hm Hlt.
  pose proof (digits_pos_le m Hm) as Hd.
  pose proof (digits_ge_1 m) as H1.
  assert (Hq : (pow2 (digits m - 1 + e) <= F2Q m e)%Q).
  { rewrite pow2_add. unfold F2Q.
    apply Qmult_le_compat_r; [| apply Qlt_le_weak, pow2_pos].
    rewrite pow2_Z by lia. rewrite <- Zle_Qle. exact Hd. }
  assert (digits m - 1 + e < k); [| lia].
  apply pow2_lt_inv. eapply Qle_lt_trans; eassumption.
Qed.

Lemma digits_bound m e k :
  m <> 0 -> (- pow2 k < F2Q m e)%Q -> (F2Q m e < pow2 k)%Q ->
  digits m + e <= k.
Proof.
  intros Hm Hlo Hhi.
  destruct (Z_lt_le_dec 0 m) as [Hpos|Hneg].
  - now apply digits_bound_pos.
  - rewrite <- digits_opp. apply digits_bound_pos; [lia|].
    rewrite F2Q_opp. lra.
Qed.

Lemma round_zero f e : round f 0 e = zero.
Proof.
  unfold round.
  assert (H0 : forall sh, 0 < sh -> rne 0 sh = 0).
  { intros sh Hsh. apply Z.le_antisymm;
      [apply rne_le | apply rne_ge]; lia. }
  destruct (0 <? _) eqn:E.
  - apply Z.ltb_lt in E. now rewrite H0.
  - reflexivity.
Qed.

Lemma F2Q_zero e : (F2Q 0 e == 0)%Q.
Proof. unfold F2Q. ring. Qed.

(** Rounding stays inside any interval whose ends are integers the format
    holds exactly. *)
Lemma round_between f lo hi m e :
  0 < prec f -> emin f <= 0 -> prec f <= emax f ->
  - 2 ^ prec f < lo -> hi < 2 ^ prec f ->
  (inject_Z lo <= F2Q m e)%Q -> (F2Q m e <= inject_Z hi)%Q ->
  between lo hi (round f m e).
Proof.
  intros Hp Hemin Hemax Hlo Hhi Hl Hh.
  assert (Hpw : (pow2 (prec f) == inject_Z (2 ^ prec f))%Q)
    by (apply pow2_Z; lia).
  assert (Hbnd : forall m' e',
             (inject_Z lo <= F2Q m' e')%Q -> (F2Q m' e' <= inject_Z hi)%Q ->
             m' <> 0 -> digits m' + e' <= prec f).
  { intros m' e' Hl' Hh' Hne. apply digits_bound; trivial.
    - rewrite Hpw, <- inject_Z_opp.
      eapply Qlt_le_trans; [| exact Hl']. rewrite <- Zlt_Qlt. lia.
    - rewrite Hpw. eapply Qle_lt_trans; [exact Hh' |].
      rewrite <- Zlt_Qlt. lia. }
  assert (Hfin : forall m' e',
             (inject_Z lo <= F2Q m' e')%Q -> (F2Q m' e' <= inject_Z hi)%Q ->
             between lo hi
               (if m' =? 0 then zero
                else if emax f <? digits m' + e' then Inf (m' <? 0)
                else Fin m' e')).
  { intros m' e' Hl' Hh'.
    destruct (Z.eqb_spec m' 0) as [-> | Hne].
    - rewrite F2Q_zero in Hl', Hh'. simpl. rewrite F2Q_zero. now split.
    - pose proof (Hbnd m' e' Hl' Hh' Hne).
      destruct (Z.ltb_spec (emax f) (digits m' + e')); [lia|].
      simpl. now split. }
  destruct (Z.eq_dec m 0) as [-> | Hm0].
  { rewrite round_zero. rewrite F2Q_zero in Hl, Hh.
    simpl. rewrite F2Q_zero. now split. }
  unfold round.
  destruct (Z.ltb_spec 0 (Z.max (digits m - prec f) (emin f - e)))
    as [Hsh|Hsh].
  - set (sh := Z.max (digits m - prec f) (emin f - e)) in *.
    pose proof (Hbnd m e Hl Hh Hm0) as Hd.
    assert (He' : e + sh <= 0) by (unfold sh; lia).
    assert (He : e <= 0) by lia.
    assert (Hpow : 2 ^ (- e) = 2 ^ (- (e + sh)) * 2 ^ sh).
    { rewrite <- Z.pow_add_r by lia. f_equal. lia. }
    apply Hfin.
    + apply F2Q_ge_int; [exact He'|].
      apply rne_ge; [exact Hsh|].
      apply F2Q_ge_int in Hl; [| exact He].
      rewrite Hpow in Hl. lia.
    + apply F2Q_le_int; [exact He'|].
      apply rne_le; [exact Hsh|].
      apply F2Q_le_int in Hh; [| exact He].
      rewrite Hpow in Hh. lia.
  - now apply Hfin.
Qed.

Lemma F2Q_mul m1 e1 m2 e2 :
  (F2Q (m1 * m2) (e1 + e2) == F2Q m1 e1 * F2Q m2 e2)%Q.
Proof. unfold F2Q. rewrite inject_Z_mult, pow2_add. ring. Qed.

Lemma F2Q_align m e c : c <= e -> (F2Q (m * 2 ^ (e - c)) c == F2Q m e)%Q.
Proof.
  intros Hc. unfold F2Q.
  rewrite inject_Z_mult, <- pow2_Z by lia.
  rewrite <- Qmult_assoc, <- pow2_add.
  replace (e - c + c) with e by lia. reflexivity.
Qed.

Lemma F2Q_sub m1 e1 m2 e2 :
  let c := Z.min e1 e2 in
  (F2Q (m1 * 2 ^ (e1 - c) - m2 * 2 ^ (e2 - c)) c ==
   F2Q m1 e1 - F2Q m2 e2)%Q.
Proof.
  intros c.
  rewrite <- (F2Q_align m1 e1 c), <- (F2Q_align m2 e2 c) by (unfold c; lia).
  unfold F2Q, Z.sub. rewrite inject_Z_plus, inject_Z_opp. ring.
Qed.

Lemma ten_value : ten = Fin 5629499534213120 (-49).
Proof. reflexivity. Qed.

Lemma half_ten_value :
  div binary64 ten (Fin 2 0) = Fin 5629499534213120 (-50).
Proof. reflexivity. Qed.

(** The literals of the source text are the IEEE values: 0.1 as a
    [float32] is [0x3DCCCCCD] and as a [float64] [0x3FB999999999999A]. *)
Lemma literal_values :
  lit binary32 1 10 = Fin 13421773 (-27) /\
  lit binary64 1 10 = Fin 7205759403792794 (-56).
Proof. split; reflexivity. Qed.

Lemma arithmetic_agrees_with_SpecFloat :
  forallb agrees arithmetic_samples = true.
Proof. vm_compute. reflexivity. Qed.

(** A coordinate of a star: [float32((rand.Float64() * max) - max/2)]
    for [max = 10.0]. *)
Lemma coordinate_between r :
  unit_interval r ->
  between (-5) 5
    (to32 (sub binary64 (mul binary64 r ten) (div binary64 ten (Fin 2 0)))).
Proof.
  intros Hr. rewrite half_ten_value, ten_value.
  destruct r as [m e | |]; try contradiction.
  destruct Hr as [H0 H1].
  cbn [mul].
  assert (Hmul : between 0 10
            (round binary64 (m * 5629499534213120) (e + -49))).
  { assert (H10 : (F2Q 5629499534213120 (-49) == 10)%Q) by reflexivity.
    apply round_between; try (cbn; lia); rewrite F2Q_mul, H10;
      [change (inject_Z 0) with 0%Q | change (inject_Z 10) with 10%Q]; lra. }
  destruct (round binary64 _ _) as [m1 e1 | |]; try contradiction.
  destruct Hmul as [Hl Hh].
  cbn [sub].
  assert (Hsub : between (-5) 5
            (round binary64
               (m1 * 2 ^ (e1 - Z.min e1 (-50)) -
                5629499534213120 * 2 ^ (-50 - Z.min e1 (-50)))
               (Z.min e1 (-50)))).
  { assert (H5 : (F2Q 5629499534213120 (-50) == 5)%Q) by reflexivity.
    change (inject_Z 0) with 0%Q in Hl.
    change (inject_Z 10) with 10%Q in Hh.
    apply round_between; try (cbn; lia); rewrite F2Q_sub, H5;
      [change (inject_Z (-5)) with (-5)%Q | change (inject_Z 5) with 5%Q];
      lra. }
  destruct (round binary64 _ _) as [m2 e2 | |]; try contradiction.
  destruct Hsub as [Hl2 Hh2].
  cbn [to32].
  apply round_between; try (cbn; lia); assumption.
Qed.

End FloatFacts.

(** ** Setup *)

Lemma sbind_ok {A B} (m : Setup A) (k : A -> Setup B) b t :
  sbind m k = (Ok b, t) ->
  exists a t1 t2, m = (Ok a, t1) /\ k a = (Ok b, t2) /\ t = (t1 ++ t2)%list.
Proof.
  unfold sbind. destruct m as [[a | e | p] t1]; try discriminate.
  destruct (k a) as [r t2] eqn:Hk. intros H. injection H as -> <-.
  exists a, t1, t2. auto.
Qed.

Lemma attempt_ok {A} c (r : answer A) a t :
  attempt c r = (Ok a, t) -> r = inr a /\ t = [c].
Proof.
  unfold attempt. destruct r; intros H; [discriminate|].
  injection H as -> <-. auto.
Qed.

Lemma perform_ok {A} c (x a : A) t :
  perform c x = (Ok a, t) -> a = x /\ t = [c].
Proof. unfold perform. intros H. injection H as -> <-. auto. Qed.

Lemma sret_ok {A} (x a : A) t : sret x = (Ok a, t) -> a = x /\ t = [].
Proof. unfold sret. intros H. injection H as -> <-. auto. Qed.

Ltac setup_step :=
  match goal with
  | H : sbind _ _ = (Ok _, _) |- _ =>
      apply sbind_ok in H;
      let a := fresh "x" in let t1 := fresh "t" in let t2 := fresh "t" in
      let H1 := fresh "H" in let H2 := fresh "H" in let H3 := fresh "H" in
      destruct H as (a & t1 & t2 & H1 & H2 & H3); cbv beta in H2
  | H : attempt _ _ = (Ok _, _) |- _ => apply attempt_ok in H; destruct H
  | H : perform _ _ = (Ok _, _) |- _ => apply perform_ok in H; destruct H
  | H : sret _ = (Ok _, _) |- _ => apply sret_ok in H; destruct H
  | H : (let '(_, _) := ?x in _) = (Ok _, _) |- _ => destruct x eqn:?
  | H : match ?x with Some _ => _ | None => _ end = (Ok _, _) |- _ =>
      destruct x eqn:?; [| discriminate H]
  | H : (if ?c then _ else _) = (Ok _, _) |- _ =>
      destruct c eqn:?; [discriminate H |]
  end.

Lemma newStars_spec env mat i n :
  exists rs t,
    newStars env mat ten ten ten i n = (Ok rs, t) /\
    List.length rs = n /\
    Forall (fun c => is_star_call c = true) t /\
    ((forall k, Float.unit_interval (env_rand env k)) -> Forall in_cube rs).
Proof.
  revert i. induction n as [|n IH]; intros i.
  - exists [], []. repeat split; constructor.
  - destruct (IH (S i)) as (rs & t & Hrs & Hlen & Ht & Hcube).
    cbn [newStars]. rewrite Hrs.
    eexists. eexists. split; [reflexivity|].
    split; [simpl; now rewrite Hlen|].
    split.
    + repeat constructor. rewrite app_nil_r. exact Ht.
    + intros Hr. constructor; [| now apply Hcube].
      unfold in_cube. cbn [Location].
      repeat split; apply FloatFacts.coordinate_between, Hr.
Qed.

Lemma newStarfield_ok env a t :
  newStarfield env = (Ok a, t) ->
  List.length (renderables a) = 1000%nat /\
  ((forall k, Float.unit_interval (env_rand env k)) ->
   Forall in_cube (renderables a)) /\
  width a = fst (env_recommended_size env) /\
  height a = snd (env_recommended_size env) /\
  (eyeLeft a, eyeRight a) = env_stereo_targets env /\
  hmdPose a = Mat4_zero /\
  hmdLoc a = Vec3_zero /\
  window.width (app_window a) = 1280 /\
  window.height (app_window a) = 720 /\
  should_close (window.Window (app_window a)) = false /\
  filter is_sizing t =
    [ChangeResolution (int32 (fst (env_recommended_size env)))
       (int32 (fst (env_recommended_size env)));
     CreateStereoRenderTargets (fst (env_recommended_size env))
       (snd (env_recommended_size env))].
Proof.
  unfold newStarfield. intros H.
  repeat setup_step.
  unfold newWindow in *. repeat setup_step.
  unfold newVR in *. repeat setup_step.
  unfold deviceProperty in *. repeat setup_step.
  unfold newShaders in *. repeat setup_step.
  subst.
  match goal with
  | H : newStars env ?m _ _ _ _ _ = (Ok ?rs, ?ts) |- _ =>
      destruct (newStars_spec env m 0 1000)
        as (rs' & ts' & Hs & Hlen & Ht & Hc);
      change ten with (Float.lit Float.binary64 10 1) in Hs;
      rewrite Hs in H; injection H as <- <-
  end.
  match goal with
  | H : (_, _) = env_recommended_size env |- _ => rewrite <- H
  end.
  match goal with
  | H : (_, _) = env_stereo_targets env |- _ => rewrite <- H
  end.
  cbn [renderables width height eyeLeft eyeRight hmdPose hmdLoc app_window
       window.width window.height window.Window should_close fst snd].
  repeat (split; [solve [auto] |]).
  repeat (rewrite ?filter_app;
          cbn [filter is_sizing is_change_resolution is_create_targets
               orb app]).
  rewrite (filter_none is_sizing is_star_call); [| now intros [] | exact Ht].
  reflexivity.
Qed.

(** The setup returns an app whenever every call that can fail
    succeeds. *)
Lemma newStarfield_succeeds env glwin sys g sb sm sl dr comp name dsn :
  env_glfw_init env = None ->
  env_create_window env = inr glwin ->
  env_vr_init env = inr (Some sys) ->
  env_string_property env 0 TrackedDeviceIndexHmd
    PropTrackingSystemNameString = (name, TrackedPropSuccess) ->
  env_string_property env 1 TrackedDeviceIndexHmd
    PropTrackingSystemNameString = (dsn, TrackedPropSuccess) ->
  env_init_opengl env = inr g ->
  env_basic_shader env = inr sb ->
  env_load_shader env ShaderRenderModelV ShaderRenderModelF = inr sm ->
  env_load_shader env ShaderLensDistortionV ShaderLensDistortionF = inr sl ->
  env_device_renderables env = inr dr ->
  env_compositor env = inr comp ->
  exists a t, newStarfield env = (Ok a, t).
Proof.
  intros H1 H2 H3 H4 H4' H5 H6 H7 H8 H9 H10.
  unfold newStarfield, newWindow, newVR, deviceProperty, newShaders.
  rewrite H1, H2, H3, H4, H4', H5, H6, H7, H8, H9, H10.
  destruct (env_recommended_size env) as [w h].
  destruct (env_stereo_targets env) as [l r].
  cbn [sbind attempt perform sret negb Z.eqb TrackedPropSuccess].
  match goal with
  | |- context [newStars env ?m _ _ _ _ _] =>
      destruct (newStars_spec env m 0 1000) as (rs & ts & Hs & _);
      change ten with (Float.lit Float.binary64 10 1) in Hs;
      rewrite Hs
  end.
  cbn [sbind attempt perform sret].
  eexists. eexists. reflexivity.
Qed.

(** ** The frame loop *)

Section FrameFacts.

Context {L : Library}.

Lemma bind_state {A B} (m : M A) (k : A -> M B) a :
  state_of (bind m k a) = state_of (k (fst (fst (m a))) (state_of (m a))).
Proof.
  unfold bind, state_of. destruct (m a) as [[x a1] t1]. simpl.
  destruct (k x a1) as [[y a2] t2]. reflexivity.
Qed.

Lemma bind_trace {A B} (m : M A) (k : A -> M B) a :
  trace_of (bind m k a) =
  trace_of (m a) ++ trace_of (k (fst (fst (m a))) (state_of (m a))).
Proof.
  unfold bind, state_of, trace_of. destruct (m a) as [[x a1] t1]. simpl.
  destruct (k x a1) as [[y a2] t2]. reflexivity.
Qed.

Lemma for_each_emit {A} (l : list A) (c : A -> call) a :
  for_each l (fun x a0 => (tt, a0, [c x])) a = (tt, a, map c l).
Proof.
  revert a. induction l as [|x tl IH]; intros a; simpl.
  - reflexivity.
  - unfold bind. simpl. rewrite IH. reflexivity.
Qed.

Lemma renderScene_eq eye a :
  renderScene eye a =
  (tt, a,
   scene_draws a
     (if eye =? EyeLeft then ProjectionLeft (eyeTransforms a)
      else ProjectionRight (eyeTransforms a))
     (Mat4_Mul4
        (if eye =? EyeLeft then PositionLeft (eyeTransforms a)
         else PositionRight (eyeTransforms a))
        (hmdPose a))).
Proof.
  unfold renderScene, bind, emit, get. simpl.
  destruct (eye =? EyeLeft); rewrite for_each_emit; reflexivity.
Qed.

Lemma renderScene_left a :
  renderScene EyeLeft a =
  (tt, a, scene_draws a (ProjectionLeft (eyeTransforms a))
            (Mat4_Mul4 (PositionLeft (eyeTransforms a)) (hmdPose a))).
Proof. rewrite renderScene_eq. reflexivity. Qed.

Lemma renderScene_right a :
  renderScene EyeRight a =
  (tt, a, scene_draws a (ProjectionRight (eyeTransforms a))
            (Mat4_Mul4 (PositionRight (eyeTransforms a)) (hmdPose a))).
Proof. rewrite renderScene_eq. reflexivity. Qed.

Lemma renderStereoTargets_eq a :
  renderStereoTargets a =
  (tt, a,
   stereo_prologue ++
   eye_draw_pass a (RenderFramebuffer (eyeLeft a))
     (ProjectionLeft (eyeTransforms a))
     (Mat4_Mul4 (PositionLeft (eyeTransforms a)) (hmdPose a)) ++
   eye_resolve_pass a (eyeLeft a) ++
   eye_draw_pass a (RenderFramebuffer (eyeRight a))
     (ProjectionRight (eyeTransforms a))
     (Mat4_Mul4 (PositionRight (eyeTransforms a)) (hmdPose a)) ++
   eye_resolve_pass a (eyeRight a)).
Proof.
  unfold renderStereoTargets, bind, emit, get.
  cbv beta iota zeta.
  rewrite renderScene_left, renderScene_right.
  cbv beta iota zeta.
  unfold stereo_prologue, eye_draw_pass, eye_resolve_pass.
  repeat (rewrite <- ?app_assoc; simpl).
  reflexivity.
Qed.

Lemma renderFrame_eq f a :
  renderFrame f a =
  (tt, (if pose_valid f then fresh_pose f a else a),
   trace_of (renderStereoTargets a) ++ frame_tail f a).
Proof.
  unfold renderFrame, bind. rewrite renderStereoTargets_eq.
  unfold emit, get, modify, ret, frame_tail, fresh_pose, trace_of.
  destruct a as [? ? ? ? ? ? ? ? ? ? ? ? [[? ?] ?] ? ? ?].
  destruct (pose_valid f); cbn -[int32 uint32 Float.lit];
    repeat (rewrite <- ?app_assoc; cbn -[int32 uint32 Float.lit]);
    reflexivity.
Qed.

(** ** Input handling *)

Lemma set_window_id a : set_window (app_window a) a = a.
Proof. destruct a; reflexivity. Qed.

Lemma dispatch_spec ev a :
  exists w,
    state_of (dispatch ev a) = set_window w a /\
    (closing a = true -> should_close (window.Window w) = true) /\
    Forall (fun c => is_input_call c = true) (trace_of (dispatch ev a)).
Proof.
  destruct ev as [w h | [|code] | ];
    [ exists (on_size w h (app_window a))
    | exists (store_should_close true (app_window a))
    | exists (app_window a); rewrite set_window_id
    | exists (store_should_close true (app_window a)) ];
    (split; [reflexivity | split; [unfold closing; simpl; auto |]]);
    repeat constructor.
Qed.

Lemma for_each_dispatch evs a :
  exists w,
    state_of (for_each evs dispatch a) = set_window w a /\
    (closing a = true -> should_close (window.Window w) = true) /\
    Forall (fun c => is_input_call c = true)
      (trace_of (for_each evs dispatch a)).
Proof.
  revert a. induction evs as [|ev tl IH]; intros a.
  - exists (app_window a). rewrite set_window_id.
    split; [reflexivity | split; [auto | constructor]].
  - cbn [for_each]. rewrite bind_state, bind_trace.
    destruct (dispatch_spec ev a) as (w1 & Hs1 & Hc1 & Ht1).
    rewrite Hs1.
    destruct (IH (set_window w1 a)) as (w2 & Hs2 & Hc2 & Ht2).
    exists w2. rewrite Hs2. repeat split.
    + intros Hc. apply Hc2. unfold closing. simpl. auto.
    + apply Forall_app. split; assumption.
Qed.

Lemma logEvent_spec ev a :
  state_of (logEvent ev a) = a /\
  Forall (fun c => is_input_call c = true) (trace_of (logEvent ev a)).
Proof.
  unfold logEvent.
  repeat (destruct (_ =? _)%Z; [split; [reflexivity | repeat constructor]|]).
  split; [reflexivity | constructor].
Qed.

Lemma pollEvents_spec queue a :
  state_of (pollEvents queue a) = a /\
  Forall (fun c => is_input_call c = true) (trace_of (pollEvents queue a)).
Proof.
  induction queue as [|ev tl [IHs IHt]].
  - split; [reflexivity | repeat constructor].
  - cbn [pollEvents]. rewrite !bind_state, !bind_trace.
    destruct (logEvent_spec ev a) as [Hs Ht].
    change (state_of (emit PollNextEvent a)) with a.
    rewrite Hs, IHs. split; [reflexivity|].
    apply Forall_app. split; [repeat constructor|].
    apply Forall_app. split; assumption.
Qed.

Lemma handleInput_spec f a :
  exists w,
    state_of (handleInput f a) = set_window w a /\
    (closing a = true -> should_close (window.Window w) = true) /\
    Forall (fun c => is_input_call c = true) (trace_of (handleInput f a)).
Proof.
  unfold handleInput. rewrite !bind_state, !bind_trace.
  change (state_of (emit PollEvents a)) with a.
  destruct (for_each_dispatch (window_events f) a) as (w & Hs & Hc & Ht).
  rewrite Hs.
  change (state_of (emit CheckKeyPresses (set_window w a)))
    with (set_window w a).
  destruct (pollEvents_spec (vr_events f) (set_window w a)) as [Hs' Ht'].
  exists w. rewrite Hs'. repeat split; auto.
  apply Forall_app. split; [repeat constructor|].
  apply Forall_app. split; [assumption|].
  apply Forall_app. split; [repeat constructor | assumption].
Qed.

(** ** Rendering *)

Lemma scene_draws_render a p v :
  Forall (fun c => is_render_call c = true) (scene_draws a p v).
Proof.
  unfold scene_draws. apply Forall_app. split; [repeat constructor|].
  apply Forall_app. split; [| repeat constructor].
  apply Forall_map_true. reflexivity.
Qed.

Lemma eye_draw_pass_render a fb p v :
  Forall (fun c => is_render_call c = true) (eye_draw_pass a fb p v).
Proof.
  unfold eye_draw_pass. apply Forall_app. split; [repeat constructor|].
  apply Forall_app. split; [apply scene_draws_render | repeat constructor].
Qed.

Lemma eye_resolve_pass_render a eye :
  Forall (fun c => is_render_call c = true) (eye_resolve_pass a eye).
Proof. repeat constructor. Qed.

Lemma renderStereoTargets_render a :
  Forall (fun c => is_render_call c = true) (trace_of (renderStereoTargets a)).
Proof.
  rewrite renderStereoTargets_eq. unfold trace_of, snd.
  apply Forall_app. split; [repeat constructor|].
  apply Forall_app. split; [apply eye_draw_pass_render|].
  apply Forall_app. split; [apply eye_resolve_pass_render|].
  apply Forall_app. split;
    [apply eye_draw_pass_render | apply eye_resolve_pass_render].
Qed.

(** ** The loop *)

Lemma run_closed frames a :
  closing a = true -> run frames a = (Closed, a, [ShouldClose]).
Proof.
  intros Hc. unfold closing in Hc.
  destruct frames; unfold run, bind, windowShouldClose, emit, get, ret;
    simpl; rewrite Hc; reflexivity.
Qed.

Lemma run_open_nil a :
  closing a = false -> run [] a = (StillOpen, a, [ShouldClose]).
Proof.
  intros Hc. unfold closing in Hc.
  unfold run, bind, windowShouldClose, emit, get, ret.
  simpl. rewrite Hc. reflexivity.
Qed.

Lemma run_open_cons f rest a :
  closing a = false ->
  run (f :: rest) a =
  (fst (fst (run rest (after_frame f a))),
   state_of (run rest (after_frame f a)),
   ShouldClose :: frame_trace f a ++ trace_of (run rest (after_frame f a))).
Proof.
  intros Hc. unfold closing in Hc.
  unfold after_frame, frame_trace.
  cbn [run]. unfold bind at 1. unfold windowShouldClose.
  unfold bind at 1. unfold emit at 1. unfold bind at 1. unfold get at 1.
  unfold ret at 1. cbn beta iota zeta. rewrite Hc.
  unfold bind, state_of, trace_of.
  destruct (handleInput f a) as [[[] a1] t1]. cbn [fst snd].
  destruct (renderFrame f a1) as [[[] a2] t2]. cbn [fst snd].
  destruct (run rest a2) as [[e a3] t3]. cbn [fst snd].
  simpl. rewrite <- app_assoc. reflexivity.
Qed.

Lemma renderFrame_state f a :
  state_of (renderFrame f a) = if pose_valid f then fresh_pose f a else a.
Proof. rewrite renderFrame_eq. reflexivity. Qed.

Lemma renderFrame_trace f a :
  trace_of (renderFrame f a) =
  trace_of (renderStereoTargets a) ++ frame_tail f a.
Proof. rewrite renderFrame_eq. reflexivity. Qed.

Lemma renderFrame_pacing f a :
  filter is_pacing (trace_of (renderFrame f a)) = pacing_calls a.
Proof.
  rewrite renderFrame_trace, filter_app.
  rewrite (filter_none is_pacing is_render_call);
    [| now intros [] | apply renderStereoTargets_render].
  unfold frame_tail. destruct (pose_valid f); reflexivity.
Qed.

Lemma frame_trace_pacing f a :
  filter is_pacing (frame_trace f a) = pacing_calls a.
Proof.
  unfold frame_trace. rewrite filter_app.
  destruct (handleInput_spec f a) as (w & Hs & _ & Ht).
  rewrite (filter_none is_pacing is_input_call);
    [| now intros [] | exact Ht].
  rewrite renderFrame_pacing, Hs. reflexivity.
Qed.

Lemma after_frame_eyes f a :
  eyeLeft (after_frame f a) = eyeLeft a /\
  eyeRight (after_frame f a) = eyeRight a.
Proof.
  unfold after_frame. rewrite renderFrame_state.
  destruct (handleInput_spec f a) as (w & Hs & _ & _). rewrite Hs.
  destruct (pose_valid f); split; reflexivity.
Qed.

Lemma pacing_calls_after f a : pacing_calls (after_frame f a) = pacing_calls a.
Proof.
  unfold pacing_calls. destruct (after_frame_eyes f a) as [-> ->].
  reflexivity.
Qed.

Lemma run_pacing frames a :
  filter is_pacing (trace_of (run frames a)) =
  List.concat (repeat (pacing_calls a) (iterations frames a)).
Proof.
  revert a. induction frames as [|f rest IH]; intros a;
    destruct (closing a) eqn:Hc.
  - rewrite run_closed by assumption. simpl. rewrite Hc. reflexivity.
  - rewrite run_open_nil by assumption. simpl. rewrite Hc. reflexivity.
  - rewrite run_closed by assumption. simpl. rewrite Hc. reflexivity.
  - rewrite run_open_cons by assumption. cbn [iterations]. rewrite Hc.
    unfold trace_of at 1. cbn [snd filter is_pacing].
    rewrite filter_app, frame_trace_pacing, IH, pacing_calls_after.
    reflexivity.
Qed.

Lemma run_checks frames a :
  List.length (filter is_should_close (trace_of (run frames a))) =
  S (iterations frames a).
Proof.
  revert a. induction frames as [|f rest IH]; intros a;
    destruct (closing a) eqn:Hc.
  - rewrite run_closed by assumption. simpl. rewrite Hc. reflexivity.
  - rewrite run_open_nil by assumption. simpl. rewrite Hc. reflexivity.
  - rewrite run_closed by assumption. simpl. rewrite Hc. reflexivity.
  - rewrite run_open_cons by assumption. cbn [iterations]. rewrite Hc.
    unfold trace_of at 1. cbn [snd filter is_should_close List.length].
    rewrite filter_app, length_app, IH. f_equal.
    unfold frame_trace. rewrite filter_app.
    destruct (handleInput_spec f a) as (w & Hs & _ & Ht).
    rewrite (filter_none is_should_close is_input_call);
      [| now intros [] | exact Ht].
    rewrite renderFrame_trace, filter_app.
    rewrite (filter_none is_should_close is_render_call);
      [| now intros [] | apply renderStereoTargets_render].
    unfold frame_tail. destruct (pose_valid f); reflexivity.
Qed.

Lemma iterations_le frames a : (iterations frames a <= List.length frames)%nat.
Proof.
  revert a. induction frames as [|f rest IH]; intros a; simpl;
    destruct (closing a); try lia.
  specialize (IH (after_frame f a)). lia.
Qed.

(** ** The close flag *)

Lemma handleInput_closing f a :
  closing a = true -> closing (state_of (handleInput f a)) = true.
Proof.
  intros Hc. destruct (handleInput_spec f a) as (w & Hs & Hw & _).
  rewrite Hs. unfold closing. simpl. auto.
Qed.

Lemma renderFrame_closing f a :
  closing (state_of (renderFrame f a)) = closing a.
Proof. rewrite renderFrame_state. destruct (pose_valid f); reflexivity. Qed.

Lemma frame_trace_never_reopens f a :
  Forall (fun c => never_reopens c = true) (frame_trace f a).
Proof.
  unfold frame_trace. apply Forall_app. split.
  - destruct (handleInput_spec f a) as (w & _ & _ & Ht).
    revert Ht. apply Forall_true_impl.
    intros [] H; try reflexivity.
    destruct value; [reflexivity | discriminate H].
  - rewrite renderFrame_trace. apply Forall_app. split.
    + generalize (renderStereoTargets_render (state_of (handleInput f a))).
      apply Forall_true_impl. now intros [].
    + unfold frame_tail. destruct (pose_valid f); repeat constructor.
Qed.

Lemma run_never_reopens frames a :
  Forall (fun c => never_reopens c = true) (trace_of (run frames a)).
Proof.
  revert a. induction frames as [|f rest IH]; intros a;
    destruct (closing a) eqn:Hc.
  - rewrite run_closed by assumption. repeat constructor.
  - rewrite run_open_nil by assumption. repeat constructor.
  - rewrite run_closed by assumption. repeat constructor.
  - rewrite run_open_cons by assumption. unfold trace_of at 1. cbn [snd].
    constructor; [reflexivity|].
    apply Forall_app. split; [apply frame_trace_never_reopens | apply IH].
Qed.

Lemma run_closes_after f rest a :
  closing a = false ->
  closing (state_of (handleInput f a)) = true ->
  run (f :: rest) a =
  (Closed, after_frame f a, ShouldClose :: frame_trace f a ++ [ShouldClose]).
Proof.
  intros Hc Hset. rewrite run_open_cons by assumption.
  assert (Hafter : closing (after_frame f a) = true).
  { unfold after_frame. now rewrite renderFrame_closing. }
  rewrite (run_closed rest _ Hafter). reflexivity.
Qed.

(** ** The head pose before tracking starts *)

Lemma Forall_not_draw (q : call -> bool) et (t : trace) :
  (forall c, q c = true -> zero_pose_draw et c) ->
  Forall (fun c => q c = true) t -> Forall (zero_pose_draw et) t.
Proof. intros Hq. apply Forall_impl. exact Hq. Qed.

Lemma scene_draws_zero a p offset :
  hmdLoc a = Vec3_zero ->
  offset = PositionLeft (eyeTransforms a) \/
  offset = PositionRight (eyeTransforms a) ->
  Forall (zero_pose_draw (eyeTransforms a))
    (scene_draws a p (Mat4_Mul4 offset Mat4_zero)).
Proof.
  intros Hloc Hoff. unfold scene_draws. rewrite Hloc.
  assert (Hv : Mat4_Mul4 offset Mat4_zero =
               Mat4_Mul4 (PositionLeft (eyeTransforms a)) Mat4_zero \/
               Mat4_Mul4 offset Mat4_zero =
               Mat4_Mul4 (PositionRight (eyeTransforms a)) Mat4_zero).
  { destruct Hoff as [-> | ->]; auto. }
  apply Forall_app. split; [repeat constructor|].
  apply Forall_app. split.
  - apply Forall_map, Forall_forall. intros obj _. split; auto.
  - constructor; [| constructor]. split; auto.
Qed.

Lemma eye_draw_pass_zero a fb p offset :
  hmdLoc a = Vec3_zero ->
  offset = PositionLeft (eyeTransforms a) \/
  offset = PositionRight (eyeTransforms a) ->
  Forall (zero_pose_draw (eyeTransforms a))
    (eye_draw_pass a fb p (Mat4_Mul4 offset Mat4_zero)).
Proof.
  intros Hloc Hoff. unfold eye_draw_pass.
  apply Forall_app. split; [repeat constructor|].
  apply Forall_app. split; [now apply scene_draws_zero | repeat constructor].
Qed.

Lemma renderStereoTargets_zero a :
  unset a ->
  Forall (zero_pose_draw (eyeTransforms a)) (trace_of (renderStereoTargets a)).
Proof.
  intros [Hpose Hloc]. rewrite renderStereoTargets_eq. unfold trace_of, snd.
  rewrite Hpose.
  apply Forall_app. split; [repeat constructor|].
  apply Forall_app. split; [apply eye_draw_pass_zero; auto|].
  apply Forall_app. split; [repeat constructor|].
  apply Forall_app. split; [apply eye_draw_pass_zero; auto|].
  repeat constructor.
Qed.

Lemma handleInput_keeps f a :
  hmdPose (state_of (handleInput f a)) = hmdPose a /\
  hmdLoc (state_of (handleInput f a)) = hmdLoc a /\
  eyeTransforms (state_of (handleInput f a)) = eyeTransforms a.
Proof.
  destruct (handleInput_spec f a) as (w & Hs & _ & _). rewrite Hs.
  repeat split.
Qed.

Lemma frame_trace_zero f a :
  unset a ->
  Forall (zero_pose_draw (eyeTransforms a)) (frame_trace f a).
Proof.
  intros [Hpose Hloc].
  destruct (handleInput_keeps f a) as (Hp & Hl & He).
  unfold frame_trace. apply Forall_app. split.
  - destruct (handleInput_spec f a) as (w & _ & _ & Ht).
    revert Ht. apply Forall_not_draw.
    intros []; try discriminate; exact (fun _ => I).
  - rewrite renderFrame_trace. apply Forall_app. split.
    + rewrite <- He. apply renderStereoTargets_zero.
      split; congruence.
    + unfold frame_tail. destruct (pose_valid f); repeat constructor.
Qed.

Lemma after_frame_unset f a :
  pose_valid f = false -> unset a ->
  unset (after_frame f a) /\
  eyeTransforms (after_frame f a) = eyeTransforms a.
Proof.
  intros Hv [Hpose Hloc]. unfold after_frame, unset.
  rewrite renderFrame_state, Hv.
  destruct (handleInput_keeps f a) as (Hp & Hl & He).
  repeat split; congruence.
Qed.

Lemma run_unset pre a :
  Forall (fun g => pose_valid g = false) pre -> unset a ->
  unset (state_of (run pre a)).
Proof.
  intros Hpre. revert a. induction Hpre as [|g pre Hg _ IH]; intros a Ha;
    destruct (closing a) eqn:Hc.
  - rewrite run_closed by assumption. exact Ha.
  - rewrite run_open_nil by assumption. exact Ha.
  - rewrite run_closed by assumption. exact Ha.
  - rewrite run_open_cons by assumption. unfold state_of at 1. cbn [fst snd].
    apply IH. now apply after_frame_unset.
Qed.

Lemma run_zero_draws pre f a :
  Forall (fun g => pose_valid g = false) pre -> unset a ->
  Forall (zero_pose_draw (eyeTransforms a)) (trace_of (run (pre ++ [f]) a)).
Proof.
  intros Hpre. revert a. induction Hpre as [|g pre Hg _ IH]; intros a Ha;
    cbn [app]; destruct (closing a) eqn:Hc.
  - rewrite run_closed by assumption. repeat constructor.
  - rewrite run_open_cons by assumption. unfold trace_of at 1. cbn [snd].
    constructor; [exact I|]. apply Forall_app. split.
    + now apply frame_trace_zero.
    + destruct (closing (after_frame f a)) eqn:Hc'.
      * rewrite run_closed by assumption. repeat constructor.
      * rewrite run_open_nil by assumption. repeat constructor.
  - rewrite run_closed by assumption. repeat constructor.
  - rewrite run_open_cons by assumption. unfold trace_of at 1. cbn [snd].
    destruct (after_frame_unset g a Hg Ha) as [Hu He].
    constructor; [exact I|]. apply Forall_app. split.
    + now apply frame_trace_zero.
    + rewrite <- He. now apply IH.
Qed.

(** ** What a frame renders *)

Lemma filter_all (p : call -> bool) (t : trace) :
  Forall (fun c => p c = true) t -> filter p t = t.
Proof.
  intros Ht. induction Ht as [|c t Hc _ IH]; simpl; [reflexivity|].
  now rewrite Hc, IH.
Qed.

Lemma same_scene_refl a : same_scene a a.
Proof. repeat split. Qed.

Lemma same_scene_trans a b c :
  same_scene a b -> same_scene b c -> same_scene a c.
Proof.
  unfold same_scene. intros ? ?.
  repeat match goal with H : _ /\ _ |- _ => destruct H end.
  repeat split; congruence.
Qed.

Lemma after_frame_scene f a : same_scene a (after_frame f a).
Proof.
  unfold after_frame. rewrite renderFrame_state.
  destruct (handleInput_spec f a) as (w & -> & _ & _).
  destruct (pose_valid f); repeat split.
Qed.

Lemma stereo_pass_scene a b pose loc :
  same_scene a b -> stereo_pass b pose loc = stereo_pass a pose loc.
Proof.
  intros (_ & _ & Hh & Hw & Hl & Hr & Het & _ & _ & Hc & _ & _ & Hrs).
  unfold stereo_pass, eye_draw_pass, eye_resolve_pass, scene_draws.
  cbn [set_hmdLoc width height renderables vrCompositor hmdLoc].
  rewrite Hh, Hw, Hl, Hr, Het, Hc, Hrs. reflexivity.
Qed.

Lemma renderStereoTargets_pass a :
  trace_of (renderStereoTargets a) = stereo_pass a (hmdPose a) (hmdLoc a).
Proof. rewrite renderStereoTargets_eq. reflexivity. Qed.

Lemma frame_trace_render f a :
  filter is_render_call (frame_trace f a) =
  stereo_pass a (hmdPose a) (hmdLoc a).
Proof.
  unfold frame_trace. rewrite filter_app.
  destruct (handleInput_spec f a) as (w & Hs & _ & Ht).
  rewrite (filter_none is_render_call is_input_call);
    [| now intros [] | exact Ht].
  rewrite renderFrame_trace, filter_app.
  rewrite filter_all by apply renderStereoTargets_render.
  assert (Htail : filter is_render_call
                    (frame_tail f (state_of (handleInput f a))) = []).
  { unfold frame_tail. destruct (pose_valid f); reflexivity. }
  rewrite Htail, app_nil_r, Hs, renderStereoTargets_pass. reflexivity.
Qed.

Lemma run_render_unset pre f a :
  Forall (fun g => pose_valid g = false) pre -> unset a ->
  filter is_render_call (trace_of (run (pre ++ [f]) a)) =
  List.concat (repeat (stereo_pass a Mat4_zero Vec3_zero)
                 (iterations (pre ++ [f]) a)).
Proof.
  intros Hpre. revert a. induction Hpre as [|g pre Hg _ IH]; intros a Ha;
    cbn [app iterations]; destruct (closing a) eqn:Hc.
  - rewrite run_closed by assumption. reflexivity.
  - rewrite run_open_cons by assumption. unfold trace_of at 1. cbn [snd].
    cbn [filter is_render_call]. rewrite filter_app, frame_trace_render.
    destruct Ha as [-> ->].
    assert (Hrest : filter is_render_call
                      (trace_of (run [] (after_frame f a))) = []).
    { destruct (closing (after_frame f a)) eqn:Hc'.
      - now rewrite run_closed.
      - now rewrite run_open_nil. }
    rewrite Hrest.
    destruct (closing (after_frame f a)); reflexivity.
  - rewrite run_closed by assumption. reflexivity.
  - rewrite run_open_cons by assumption. unfold trace_of at 1. cbn [snd].
    cbn [filter is_render_call]. rewrite filter_app, frame_trace_render.
    destruct (after_frame_unset g a Hg Ha) as [Hu _].
    rewrite (IH _ Hu).
    rewrite (stereo_pass_scene a (after_frame g a))
      by apply after_frame_scene.
    destruct Ha as [-> ->]. reflexivity.
Qed.

Lemma run_starts pre f a :
  closing a = false -> (1 <= iterations (pre ++ [f]) a)%nat.
Proof.
  intros Hc. destruct pre; cbn [app iterations]; rewrite Hc; lia.
Qed.

End FrameFacts.

(* ================================================================== *)
(** * Properties of the frame loop *)

Lemma renderFrame_lens {L : Library} f a :
  filter is_lens_render (trace_of (renderFrame f a)) =
  [LensRender (int32 (width a)) (int32 (height a))].
Proof.
  rewrite renderFrame_trace, filter_app.
  rewrite (filter_none is_lens_render is_render_call);
    [| now intros [] | apply renderStereoTargets_render].
  unfold frame_tail. destruct (pose_valid f); reflexivity.
Qed.

Lemma frame_trace_lens {L : Library} f a :
  filter is_lens_render (frame_trace f a) =
  [LensRender (int32 (width a)) (int32 (height a))].
Proof.
  unfold frame_trace. rewrite filter_app.
  destruct (handleInput_spec f a) as (w & Hs & _ & Ht).
  rewrite (filter_none is_lens_render is_input_call);
    [| now intros [] | exact Ht].
  rewrite renderFrame_lens, Hs. reflexivity.
Qed.

Lemma drawn_scene a p v :
  drawn (scene_draws a p v) = map (fun r => (r, None)) (renderables a).
Proof.
  unfold scene_draws, drawn. cbn [app flat_map].
  rewrite flat_map_app. cbn [flat_map]. rewrite app_nil_r.
  induction (renderables a) as [|r rs IH]; simpl; [reflexivity|].
  now rewrite IH.
Qed.

(** C1: in a frame for which the compositor reports the pose of the
    headset as invalid, [renderFrame] leaves [hmdPose] and [hmdLoc] as
    they were; in a frame with a valid pose it stores the inverse of the
    widened device-to-world matrix and the position read from entries 9,
    10 and 11 of that matrix. *)
Theorem renderFrame_keeps_stale_pose {L : Library}
    (f : frame_env) (a : starfield) :
  let a' := state_of (renderFrame f a) in
  let m := DeviceToAbsoluteTracking (render_pose f) in
  (pose_valid f = false ->
   hmdPose a' = hmdPose a /\ hmdLoc a' = hmdLoc a) /\
  (pose_valid f = true ->
   hmdPose a' = Mat4_Inv (Mat34ToMat4 m) /\
   hmdLoc a' = (index m 9, index m 10, index m 11)).
Proof.
  cbv zeta. rewrite renderFrame_state.
  split; intros ->; split; reflexivity.
Qed.

Lemma renderFrame_keeps_stale_pose_witness :
  (hmdPose (state_of (renderFrame (L := Sample.library)
                        Sample.lost Sample.app)) = hmdPose Sample.app /\
   hmdLoc (state_of (renderFrame (L := Sample.library)
                       Sample.lost Sample.app)) = hmdLoc Sample.app) /\
  hmdLoc (state_of (renderFrame (L := Sample.library)
                      Sample.tracked Sample.app)) =
    (Sample.f32 0 1, Sample.f32 1 1, Sample.f32 0 1).
Proof.
  split.
  - apply (proj1 (renderFrame_keeps_stale_pose (L := Sample.library)
                    Sample.lost Sample.app)).
    reflexivity.
  - apply (proj2 (renderFrame_keeps_stale_pose (L := Sample.library)
                    Sample.tracked Sample.app) eq_refl).
Defined.

(** C2: every iteration of the frame loop issues, among submissions,
    buffer swaps and waits for poses, exactly these four calls in this
    order: [Submit] of the left eye's resolve texture, [Submit] of the
    right eye's, [SwapBuffers], [WaitGetPoses]; a run of the loop is the
    check of the close flag followed, while the window is open, by such
    an iteration and the rest of the run. *)
Theorem frame_loop_submits_then_waits {L : Library}
    (frames : list frame_env) (f : frame_env) (a : starfield) :
  filter is_pacing (frame_trace f a) =
    [Submit EyeLeft (uint32 (ResolveTexture (eyeLeft a)));
     Submit EyeRight (uint32 (ResolveTexture (eyeRight a)));
     SwapBuffers;
     WaitGetPoses false] /\
  trace_of (run (f :: frames) a) =
    (if closing a then [ShouldClose]
     else ShouldClose :: frame_trace f a ++
          trace_of (run frames (after_frame f a))) /\
  filter is_pacing (trace_of (run frames a)) =
    List.concat (repeat (pacing_calls a) (iterations frames a)) /\
  List.length (filter is_should_close (trace_of (run frames a))) =
    S (iterations frames a).
Proof.
  split; [apply frame_trace_pacing|].
  split; [| split; [apply run_pacing | apply run_checks]].
  destruct (closing a) eqn:Hc.
  - now rewrite run_closed.
  - now rewrite run_open_cons.
Qed.

(** C7: within a frame, what is issued for the left eye and for the
    right eye is one and the same sequence of calls up to the framebuffer
    bound as target, the projection and the view, the view being the
    offset of the eye times the head pose; both eyes draw the list of
    renderables in its order with a nil binder and end with the call that
    renders the devices. *)
Theorem eyes_differ_in_target_and_matrices {L : Library} (a : starfield) :
  let et := eyeTransforms a in
  let viewLeft := Mat4_Mul4 (PositionLeft et) (hmdPose a) in
  let viewRight := Mat4_Mul4 (PositionRight et) (hmdPose a) in
  renderScene EyeLeft a =
    (tt, a, scene_draws a (ProjectionLeft et) viewLeft) /\
  renderScene EyeRight a =
    (tt, a, scene_draws a (ProjectionRight et) viewRight) /\
  renderStereoTargets a =
    (tt, a,
     stereo_prologue ++
     eye_draw_pass a (RenderFramebuffer (eyeLeft a))
       (ProjectionLeft et) viewLeft ++
     eye_resolve_pass a (eyeLeft a) ++
     eye_draw_pass a (RenderFramebuffer (eyeRight a))
       (ProjectionRight et) viewRight ++
     eye_resolve_pass a (eyeRight a)) /\
  drawn (trace_of (renderScene EyeLeft a)) =
    map (fun r => (r, None)) (renderables a) /\
  drawn (trace_of (renderScene EyeRight a)) =
    map (fun r => (r, None)) (renderables a).
Proof.
  cbv zeta.
  split; [apply renderScene_left|].
  split; [apply renderScene_right|].
  split; [apply renderStereoTargets_eq|].
  rewrite renderScene_left, renderScene_right. unfold trace_of, snd.
  split; apply drawn_scene.
Qed.

(** C8: nothing the driver does clears the close flag: [handleInput] and
    [renderFrame] keep a set flag set and no [SetShouldClose(false)] is
    ever issued; a run that finds the flag set at its check stops there,
    with no input handled and nothing rendered; when the flag is set
    while the input of an iteration is handled, that iteration is the
    last one; the flag is checked once per iteration, before the input
    is handled and the frame rendered, and once more when the loop is
    left or the frames run out. *)
Theorem close_flag_is_final {L : Library} :
  (forall f a, closing a = true ->
     closing (state_of (handleInput f a)) = true /\
     closing (state_of (renderFrame f a)) = true) /\
  (forall frames a,
     Forall (fun c => c <> SetShouldClose false) (trace_of (run frames a))) /\
  (forall frames a, closing a = true ->
     run frames a = (Closed, a, [ShouldClose])) /\
  (forall f rest a, closing a = false ->
     closing (state_of (handleInput f a)) = true ->
     run (f :: rest) a =
     (Closed, after_frame f a,
      ShouldClose :: frame_trace f a ++ [ShouldClose])) /\
  (forall f rest a, closing a = false ->
     trace_of (run (f :: rest) a) =
     ShouldClose :: frame_trace f a ++
     trace_of (run rest (after_frame f a))) /\
  (forall frames a,
     List.length (filter is_should_close (trace_of (run frames a))) =
     S (iterations frames a)).
Proof.
  split.
  { intros f a Hc. split; [now apply handleInput_closing|].
    now rewrite renderFrame_closing. }
  split.
  { intros frames a. generalize (run_never_reopens frames a).
    apply Forall_impl. intros c Hc ->. discriminate Hc. }
  split; [intros; now apply run_closed|].
  split; [intros; now apply run_closes_after|].
  split; [intros; now rewrite run_open_cons | intros; apply run_checks].
Qed.

Lemma close_flag_is_final_witness :
  run (L := Sample.library) [Sample.escape; Sample.tracked; Sample.lost]
    Sample.app =
  (Closed, after_frame (L := Sample.library) Sample.escape Sample.app,
   ShouldClose :: frame_trace (L := Sample.library) Sample.escape Sample.app
     ++ [ShouldClose]).
Proof.
  apply (proj1 (proj2 (proj2 (proj2
           (close_flag_is_final (L := Sample.library)))))).
  - reflexivity.
  - reflexivity.
Defined.

(* ================================================================== *)
(** * Properties of the setup *)

Lemma deviceProperty_eq env vr query device property :
  deviceProperty env vr query device property =
  (let sp := env_string_property env query TrackedDeviceIndexHmd
               PropTrackingSystemNameString in
   if negb (snd sp =? TrackedPropSuccess)
   then Error ("Couldn't get property " ++ dec property ++
               " from device " ++ dec device)%string
   else Ok (fst sp),
   [GetStringTrackedDeviceProperty TrackedDeviceIndexHmd
      PropTrackingSystemNameString]).
Proof.
  unfold deviceProperty.
  destruct (env_string_property _ _ _ _) as [val status]. cbn [fst snd].
  unfold sbind, perform, sret.
  destruct (negb (status =? TrackedPropSuccess)); reflexivity.
Qed.

(** C4: whatever [device] and [property] it is called with,
    [deviceProperty] issues one query, for the tracking system name of
    the headset; when it succeeds its result is the answer to that query,
    and it succeeds with that result for every other [device] and
    [property] too.  So a successful [newVR] has asked for the tracking
    system name twice and prints the two answers, the second one as the
    serial number: when the runtime answers the repeated query as it
    answered the first, the name is printed twice. *)
Theorem deviceProperty_asks_system_name
    (env : setup_env) (vr : vrSystem) (query : nat) (device property : Z) :
  let answer n := fst (env_string_property env n TrackedDeviceIndexHmd
                         PropTrackingSystemNameString) in
  snd (deviceProperty env vr query device property) =
    [GetStringTrackedDeviceProperty TrackedDeviceIndexHmd
       PropTrackingSystemNameString] /\
  (forall v, fst (deviceProperty env vr query device property) = Ok v ->
     v = answer query /\
     forall device' property',
       fst (deviceProperty env vr query device' property') = Ok v) /\
  (forall vr' t, newVR env = (Ok vr', t) ->
     let calls name dsn :=
       [VRInit;
        GetStringTrackedDeviceProperty TrackedDeviceIndexHmd
          PropTrackingSystemNameString;
        GetStringTrackedDeviceProperty TrackedDeviceIndexHmd
          PropTrackingSystemNameString;
        Printf ("Connected to " ++ name ++ " " ++ dsn ++ nl)%string] in
     t = calls (answer 0%nat) (answer 1%nat) /\
     (answer 1%nat = answer 0%nat ->
      t = calls (answer 0%nat) (answer 0%nat))).
Proof.
  cbv zeta. split; [now rewrite deviceProperty_eq|]. split.
  - intros v. rewrite deviceProperty_eq. cbv zeta. cbn [fst].
    destruct (negb _) eqn:Hs; [discriminate|].
    intros [= <-]. split; [reflexivity|].
    intros device' property'. rewrite deviceProperty_eq. cbv zeta.
    cbn [fst]. now rewrite Hs.
  - intros vr' t H. unfold newVR in H.
    repeat setup_step.
    rewrite deviceProperty_eq in *. cbv zeta in *.
    repeat match goal with
           | H : ((if negb ?c then _ else _), _) = (Ok _, _) |- _ =>
               destruct (negb c); [discriminate H|]; injection H as <- <-
           end.
    subst. split; [reflexivity|].
    intros ->. reflexivity.
Qed.

Lemma deviceProperty_asks_system_name_witness :
  snd (newVR Sample.env) =
  [VRInit;
   GetStringTrackedDeviceProperty TrackedDeviceIndexHmd
     PropTrackingSystemNameString;
   GetStringTrackedDeviceProperty TrackedDeviceIndexHmd
     PropTrackingSystemNameString;
   Printf ("Connected to lighthouse lighthouse" ++ nl)%string].
Proof.
  apply (proj2 (proj2 (deviceProperty_asks_system_name Sample.env
                         {| System := 13 |} 1 TrackedDeviceIndexHmd
                         PropSerialNumberString))
           {| System := 13 |});
    reflexivity.
Defined.

(** With a headset that does not answer, the error names the property
    and the device the caller asked for, the query the tracking system
    name. *)
Lemma deviceProperty_error_names_arguments :
  deviceProperty Sample.mute_env {| System := 13 |} 1 TrackedDeviceIndexHmd
    PropSerialNumberString =
  (Error "Couldn't get property 1002 from device 0",
   [GetStringTrackedDeviceProperty TrackedDeviceIndexHmd
      PropTrackingSystemNameString]).
Proof. reflexivity. Qed.

Lemma filter_sub (p q : call -> bool) (t : trace) :
  (forall c, p c = true -> q c = true) ->
  filter p (filter q t) = filter p t.
Proof.
  intros Hpq. induction t as [|c t IH]; simpl; [reflexivity|].
  destruct (q c) eqn:Hq; simpl.
  - now rewrite IH.
  - destruct (p c) eqn:Hp; [| exact IH].
    apply Hpq in Hp. congruence.
Qed.

Lemma sample_setup_ok :
  newStarfield Sample.env = (Ok Sample.started, Sample.setup_trace).
Proof. reflexivity. Qed.

Lemma sample_rand_unit n : Float.unit_interval (Sample.rand n).
Proof.
  unfold Sample.rand, Float.unit_interval.
  pose proof (Z.mod_pos_bound (Z.of_nat n * 7919) 1024 ltac:(lia)) as Hb.
  split.
  - change 0%Q with (inject_Z 0). apply FloatFacts.F2Q_ge_int; lia.
  - change 1%Q with (inject_Z 1). apply FloatFacts.F2Q_lt_int; [lia|].
    change (2 ^ (- -10)) with 1024. lia.
Qed.

(** C5: when every sample of the random source lies in the half-open
    unit interval, a successful setup creates 1000 stars and each
    coordinate of each star is a finite [float32] between -5 and 5. *)
Theorem stars_lie_in_cube (env : setup_env) (a : starfield) (t : trace) :
  (forall n, Float.unit_interval (env_rand env n)) ->
  newStarfield env = (Ok a, t) ->
  List.length (renderables a) = 1000%nat /\
  Forall in_cube (renderables a).
Proof.
  intros Hrand Hok.
  destruct (newStarfield_ok env a t Hok) as (Hlen & Hcube & _).
  split; [exact Hlen | exact (Hcube Hrand)].
Qed.

Lemma stars_lie_in_cube_witness :
  List.length (renderables Sample.started) = 1000%nat /\
  Forall in_cube (renderables Sample.started).
Proof.
  apply (stars_lie_in_cube Sample.env Sample.started Sample.setup_trace).
  - exact sample_rand_unit.
  - reflexivity.
Defined.

(** C6: after a successful setup the stereo render targets have been
    created, once, with the width and the height the runtime recommends,
    passed as they are; the app keeps these two values as its [width] and
    [height] and the two targets as its eyes. *)
Theorem eye_targets_get_recommended_size
    (env : setup_env) (a : starfield) (t : trace) :
  newStarfield env = (Ok a, t) ->
  filter is_create_targets t =
    [CreateStereoRenderTargets (fst (env_recommended_size env))
       (snd (env_recommended_size env))] /\
  width a = fst (env_recommended_size env) /\
  height a = snd (env_recommended_size env) /\
  (eyeLeft a, eyeRight a) = env_stereo_targets env.
Proof.
  intros Hok.
  destruct (newStarfield_ok env a t Hok)
    as (_ & _ & Hw & Hh & Heyes & _ & _ & _ & _ & _ & Hsz).
  repeat split; try assumption.
  rewrite <- (filter_sub is_create_targets is_sizing), Hsz;
    [reflexivity|].
  intros c Hc. unfold is_sizing. rewrite Hc. apply orb_true_r.
Qed.

Lemma eye_targets_get_recommended_size_witness :
  filter is_create_targets Sample.setup_trace =
    [CreateStereoRenderTargets 1512 1680] /\
  width Sample.started = 1512 /\
  height Sample.started = 1680 /\
  (eyeLeft Sample.started, eyeRight Sample.started) =
    (Sample.left_eye, Sample.right_eye).
Proof.
  apply (eye_targets_get_recommended_size Sample.env Sample.started
           Sample.setup_trace).
  reflexivity.
Defined.

(** C9: a successful setup has set the resolution of the forward
    renderer once, passing the recommended width converted to [int32] as
    the width and as the height; when the recommended height converts to
    another value, no call sets the resolution to the recommended width
    and height. *)
Theorem renderer_resolution_repeats_width
    (env : setup_env) (a : starfield) (t : trace) :
  newStarfield env = (Ok a, t) ->
  let w := fst (env_recommended_size env) in
  let h := snd (env_recommended_size env) in
  filter is_change_resolution t = [ChangeResolution (int32 w) (int32 w)] /\
  (int32 h <> int32 w -> ~ In (ChangeResolution (int32 w) (int32 h)) t).
Proof.
  intros Hok w h.
  destruct (newStarfield_ok env a t Hok)
    as (_ & _ & _ & _ & _ & _ & _ & _ & _ & _ & Hsz).
  assert (Hf : filter is_change_resolution t =
               [ChangeResolution (int32 w) (int32 w)]).
  { rewrite <- (filter_sub is_change_resolution is_sizing), Hsz;
      [reflexivity|].
    intros c Hc. unfold is_sizing. now rewrite Hc. }
  split; [exact Hf|].
  intros Hne Hin.
  assert (Hin' : In (ChangeResolution (int32 w) (int32 h))
                   (filter is_change_resolution t)).
  { apply filter_In. split; [exact Hin | reflexivity]. }
  rewrite Hf in Hin'. destruct Hin' as [Heq | []].
  injection Heq as Heq. congruence.
Qed.

Lemma renderer_resolution_repeats_width_witness :
  filter is_change_resolution Sample.setup_trace =
    [ChangeResolution 1512 1512] /\
  (int32 1680 <> int32 1512 ->
   ~ In (ChangeResolution 1512 1680) Sample.setup_trace).
Proof.
  apply (renderer_resolution_repeats_width Sample.env Sample.started
           Sample.setup_trace).
  reflexivity.
Defined.

(** C10: a successful setup leaves the head pose at the zero matrix and
    the head position at the zero vector, and they stay so for as long as
    the compositor reports no valid pose; every draw of the frames up to
    and including the first frame with a valid pose is made with a view
    that is the offset of an eye times the zero matrix and a camera at
    the zero vector.  The first frame is rendered, and what these frames
    issue to render is, frame after frame, the pass of the left eye with
    the view [PositionLeft] times zero, then the pass of the right eye
    with the view [PositionRight] times zero, each with the camera at the
    zero vector. *)
Theorem head_pose_is_zero_until_tracked {L : Library}
    (env : setup_env) (a : starfield) (t : trace)
    (pre : list frame_env) (f : frame_env) :
  newStarfield env = (Ok a, t) ->
  Forall (fun g => pose_valid g = false) pre ->
  (hmdPose a = Mat4_zero /\ hmdLoc a = Vec3_zero) /\
  (hmdPose (state_of (run pre a)) = Mat4_zero /\
   hmdLoc (state_of (run pre a)) = Vec3_zero) /\
  Forall (zero_pose_draw (eyeTransforms a)) (trace_of (run (pre ++ [f]) a)) /\
  (1 <= iterations (pre ++ [f]) a)%nat /\
  filter is_render_call (trace_of (run (pre ++ [f]) a)) =
    List.concat (repeat (stereo_pass a Mat4_zero Vec3_zero)
                   (iterations (pre ++ [f]) a)).
Proof.
  intros Hok Hpre.
  destruct (newStarfield_ok env a t Hok)
    as (_ & _ & _ & _ & _ & Hpose & Hloc & _ & _ & Hopen & _).
  assert (Ha : unset a) by (split; assumption).
  split; [exact Ha|].
  split; [now apply run_unset|].
  split; [now apply run_zero_draws|].
  split; [now apply run_starts | now apply run_render_unset].
Qed.

Lemma head_pose_is_zero_until_tracked_witness :
  (hmdPose Sample.started = Mat4_zero /\
   hmdLoc Sample.started = Vec3_zero) /\
  (hmdPose (state_of (run (L := Sample.library)
                        [Sample.lost; Sample.lost] Sample.started))
     = Mat4_zero /\
   hmdLoc (state_of (run (L := Sample.library)
                       [Sample.lost; Sample.lost] Sample.started))
     = Vec3_zero) /\
  Forall (zero_pose_draw (L := Sample.library)
            (eyeTransforms Sample.started))
    (trace_of (run (L := Sample.library)
                 ([Sample.lost; Sample.lost] ++ [Sample.tracked])
                 Sample.started)) /\
  (1 <= iterations (L := Sample.library)
          ([Sample.lost; Sample.lost] ++ [Sample.tracked])
          Sample.started)%nat /\
  filter is_render_call
    (trace_of (run (L := Sample.library)
                 ([Sample.lost; Sample.lost] ++ [Sample.tracked])
                 Sample.started)) =
    List.concat
      (repeat (stereo_pass (L := Sample.library) Sample.started
                 Mat4_zero Vec3_zero)
         (iterations (L := Sample.library)
            ([Sample.lost; Sample.lost] ++ [Sample.tracked])
            Sample.started)).
Proof.
  apply (head_pose_is_zero_until_tracked (L := Sample.library) Sample.env
           Sample.started Sample.setup_trace).
  - reflexivity.
  - repeat constructor.
Defined.

(** C3 (as the code has it): with a 1280 x 720 window and a runtime that
    recommends 1512 x 1680 eye targets, the one call that renders the
    distortion of a frame gets 1512 and 1680, also after the window was
    resized to 800 x 600: [a.width] and [a.height] are the fields of the
    app, not the fields of its window. *)
Theorem distortion_render_gets_eye_target_size :
  newStarfield Sample.env = (Ok Sample.started, Sample.setup_trace) /\
  window.width (app_window Sample.started) = 1280 /\
  window.height (app_window Sample.started) = 720 /\
  filter is_lens_render
    (frame_trace (L := Sample.library) Sample.lost Sample.started) =
    [LensRender 1512 1680] /\
  window.width
    (app_window (state_of (handleInput Sample.tracked Sample.started)))
    = 800 /\
  window.height
    (app_window (state_of (handleInput Sample.tracked Sample.started)))
    = 600 /\
  filter is_lens_render
    (frame_trace (L := Sample.library) Sample.tracked Sample.started) =
    [LensRender 1512 1680].
Proof.
  pose proof sample_setup_ok as Hok.
  destruct (newStarfield_ok _ _ _ Hok)
    as (_ & _ & Hw & Hh & _ & _ & _ & Hww & Hwh & _).
  split; [exact Hok|].
  split; [exact Hww|]. split; [exact Hwh|].
  rewrite !frame_trace_lens, Hw, Hh.
  repeat split; reflexivity.
Qed.

(* ================================================================== *)
(** * Further properties of the setup *)

Lemma sbind_inv {A B} (m : Setup A) (k : A -> Setup B) r t :
  sbind m k = (r, t) ->
  (exists a t1 t2, m = (Ok a, t1) /\ k a = (r, t2) /\ t = (t1 ++ t2)%list) \/
  (exists e, m = (Error e, t) /\ r = Error e) \/
  (exists p, m = (Panic p, t) /\ r = Panic p).
Proof.
  unfold sbind. destruct m as [[a | e | p] t1].
  - destruct (k a) as [r' t2] eqn:Hk. intros [= <- <-].
    left. exists a, t1, t2. auto.
  - intros [= <- <-]. right. left. exists e. auto.
  - intros [= <- <-]. right. right. exists p. auto.
Qed.

Lemma newStars_closed env sb i n :
  newStars env (star_material sb) ten ten ten i n =
  (Ok (map (star env sb) (seq i n)),
   flat_map (fun _ => star_calls) (seq i n)).
Proof.
  revert i. induction n as [|n IH]; intros i; [reflexivity|].
  cbn [newStars]. rewrite IH.
  unfold newStar, sbind, perform, sret.
  cbn [seq map flat_map app star_calls]. rewrite app_nil_r. reflexivity.
Qed.

Ltac dpair x := tryif is_var x then destruct x else destruct x eqn:?.
Ltac dopt x := tryif is_var x then destruct x else destruct x eqn:?.
Ltac dif x := destruct x eqn:?.

Lemma newStars_inv env sb i n r t :
  newStars env (star_material sb) ten ten ten i n = (r, t) ->
  r = Ok (map (star env sb) (seq i n)) /\
  t = flat_map (fun _ => star_calls) (seq i n).
Proof.
  intros H. rewrite newStars_closed in H.
  split; [exact (eq_sym (f_equal fst H)) | exact (eq_sym (f_equal snd H))].
Qed.

Lemma newStars_run env sb r t :
  newStars env (star_material sb) ten ten ten 0 1000 = (r, t) ->
  exists rs, r = Ok rs /\ star_run env sb rs t.
Proof.
  intros H. apply newStars_inv in H. destruct H as [Hr Ht].
  eexists. split; [exact Hr | split; [reflexivity | exact Ht]].
Qed.

(** One step of the analysis of an outcome of the setup. *)
Ltac outcome_step :=
  match goal with
  | H : (_, _) = (_, _) |- _ =>
      first [discriminate H | injection H as ? ?; subst]
  | H : sbind _ _ = (_, _) |- _ =>
      apply sbind_inv in H;
      let H1 := fresh "H" in
      let H2 := fresh "H" in
      let E := fresh "E" in
      destruct H as [(? & ? & ? & H1 & H2 & ?) | [(? & H1 & E) | (? & H1 & E)]];
      [cbv beta in H2
      | first [discriminate E | injection E as <-]
      | first [discriminate E | injection E as <-]]
  | H : attempt _ ?r = (_, _) |- _ => unfold attempt in H; destruct r eqn:?
  | H : perform _ _ = (_, _) |- _ => unfold perform in H
  | H : sret _ = (_, _) |- _ => unfold sret in H
  | H : newWindow _ _ _ _ = (_, _) |- _ => unfold newWindow in H
  | H : newVR _ = (_, _) |- _ => unfold newVR in H
  | H : newShaders _ = (_, _) |- _ => unfold newShaders in H
  | H : deviceProperty _ _ _ _ _ = (_, _) |- _ => unfold deviceProperty in H
  | H : newStars _ _ _ _ _ _ _ = (_, _) |- _ =>
      change (newStars ?e {| Shader := ?sb; DiffuseColor := _;
                             Shininess := _ |} _ _ _ ?i ?n)
        with (newStars e (star_material sb) ten ten ten i n) in H;
      apply newStars_run in H;
      let E := fresh "E" in
      destruct H as (? & E & ?);
      first [discriminate E | injection E as <-]
  | H : (let '(_, _) := ?x in _) = (_, _) |- _ => dpair x
  | H : match ?x with Some _ => _ | None => _ end = (_, _) |- _ =>
      dopt x
  | H : (if ?c then _ else _) = (_, _) |- _ => dif c
  end.

Ltac outcome_cases H := unfold newStarfield in H; repeat outcome_step.

Lemma star_calls_kind (l : list nat) :
  Forall (fun c => is_star_call c = true) (flat_map (fun _ => star_calls) l).
Proof.
  induction l as [|k l IH]; [constructor|].
  cbn [flat_map]. apply Forall_app. split; [repeat constructor | exact IH].
Qed.

Lemma star_calls_count (l : list nat) :
  List.length (filter is_rand (flat_map (fun _ => star_calls) l)) =
    (3 * List.length l)%nat /\
  List.length (filter is_create_sphere (flat_map (fun _ => star_calls) l)) =
    List.length l.
Proof.
  induction l as [|k l [IH1 IH2]]; [split; reflexivity|].
  cbn [flat_map star_calls app filter is_rand is_create_sphere List.length].
  rewrite IH1, IH2. split; lia.
Qed.

Lemma star_run_kind env sb rs ts :
  star_run env sb rs ts -> Forall (fun c => is_star_call c = true) ts.
Proof. intros [_ ->]. apply star_calls_kind. Qed.

Lemma star_run_count env sb rs ts :
  star_run env sb rs ts ->
  List.length (filter is_rand ts) = 3000%nat /\
  List.length (filter is_create_sphere ts) = 1000%nat.
Proof.
  intros [_ ->].
  destruct (star_calls_count (seq 0 1000)) as [H1 H2].
  rewrite H1, H2, length_seq. split; reflexivity.
Qed.

Ltac no_loop_call_tac :=
  repeat first
    [ apply Forall_nil
    | apply Forall_cons; [reflexivity|]
    | apply Forall_app; split
    | match goal with
      | H : star_run _ _ _ ?ts |- Forall _ ?ts =>
          generalize (star_run_kind _ _ _ _ H);
          apply Forall_impl; now intros []
      end ].

(** ** The first failure of a setup *)

Lemma first_failure_next env queries c rest res :
  reported env queries c = None ->
  first_failure env (if is_property_query c then S queries else queries)
    rest = res ->
  first_failure env queries (c :: rest) = res.
Proof. intros Hc Hrest. cbn [first_failure]. now rewrite Hc. Qed.

Lemma first_failure_last env queries c e :
  reported env queries c = Some e ->
  first_failure env queries [c] = Some (e, []).
Proof. intros Hc. cbn [first_failure]. now rewrite Hc. Qed.

(** The calls that create the stars cannot fail. *)
Lemma first_failure_stars env queries (ts t : trace) res :
  Forall (fun c => is_star_call c = true) ts ->
  first_failure env queries t = res ->
  first_failure env queries (ts ++ t) = res.
Proof.
  intros Hs <-. induction Hs as [|c ts Hc _ IH]; [reflexivity|].
  cbn [app first_failure]. destruct c; try discriminate Hc; exact IH.
Qed.

(** The answers of the environment, as the analysis of an outcome
    leaves them among the hypotheses, in a form to rewrite with. *)
Ltac env_answers :=
  repeat match goal with
         | H : match ?x with Some _ => _ | None => _ end = _ |- _ =>
             destruct x eqn:?;
             first [discriminate H | injection H as <- | clear H]
         | H : negb _ = true |- _ => apply negb_true_iff in H
         | H : negb _ = false |- _ => apply negb_false_iff in H
         end.

Ltac reported_tac :=
  cbn [reported error_of requested fst snd];
  repeat match goal with
         | H : ?x = _ |- context [?x] => rewrite H; cbn [error_of fst snd]
         end;
  reflexivity.

Ltac first_failure_tac :=
  repeat first
    [ reflexivity
    | apply first_failure_last; reported_tac
    | apply first_failure_next; [reported_tac | cbn [is_property_query]]
    | match goal with
      | H : star_run _ _ _ ?ts |- first_failure _ _ (?ts ++ _) = _ =>
          apply first_failure_stars; [exact (star_run_kind _ _ _ _ H)|]
      end ].

(** Every outcome of the setup. *)
Lemma newStarfield_cases env r t :
  newStarfield env = (r, t) ->
  preceded is_make_current is_graphics_call t = true /\
  preceded is_vr_init is_vr_call t = true /\
  Forall (fun c => is_loop_call c = false) t /\
  first_failure env 0 t =
    match r with Error e => Some (e, []) | _ => None end /\
  match r with
  | Error e => True
  | Panic p =>
      p = "BUG"%string /\
      env_glfw_init env = None /\
      env_vr_init env = inr None /\
      exists glwin,
        env_create_window env = inr glwin /\
        t = calls_until_vr_init glwin
  | Ok a =>
      exists sys sb sm sl,
        env_vr_init env = inr (Some sys) /\
        env_basic_shader env = inr sb /\
        env_load_shader env ShaderRenderModelV ShaderRenderModelF
          = inr sm /\
        env_load_shader env ShaderLensDistortionV ShaderLensDistortionF
          = inr sl /\
        app_vrSystem a = {| System := sys |} /\
        renderables a = map (star env sb) (seq 0 1000) /\
        filter is_shader_use t =
          [CreateDistortionLens sys sl (eyeLeft a) (eyeRight a);
           CreateDeviceRenderables sys sm] /\
        List.length (filter is_rand t) = 3000%nat /\
        List.length (filter is_create_sphere t) = 1000%nat /\
        existsb is_make_current t = true /\
        existsb is_vr_init t = true
  end.
Proof.
  intros H. destruct r as [a | e | p]; outcome_cases H; subst; cbn [app].
  all: env_answers.
  all: split; [reflexivity|]; split; [reflexivity|];
       split; [no_loop_call_tac|]; split; [first_failure_tac|].
  { (* success *)
    do 4 eexists.
    repeat (split; [first [eassumption | reflexivity]|]).
    match goal with H : star_run _ _ _ _ |- _ =>
      pose proof (star_run_kind _ _ _ _ H) as Hk;
      pose proof (star_run_count _ _ _ _ H) as [Hr Hc];
      destruct H as [Hrs _]
    end.
    cbn [renderables eyeLeft eyeRight].
    split; [exact Hrs|].
    cbn [filter is_shader_use is_rand is_create_sphere List.length
         existsb is_make_current is_vr_init orb].
    rewrite !filter_app, !length_app, Hr, Hc.
    rewrite (filter_none is_shader_use is_star_call);
      [| now intros [] | exact Hk].
    cbn [filter is_shader_use is_rand is_create_sphere List.length app
         existsb is_make_current is_vr_init orb].
    repeat split; reflexivity. }
  all: try exact I.
  do 3 (split; [first [assumption | reflexivity]|]).
  eexists. split; [first [eassumption | reflexivity] | reflexivity].
Qed.

(** X1: in the calls of the setup the first call that fails, if there
    is one, is the last call made, and its error is what the setup
    returns: nothing is tried after a failure, and no call has failed
    when the setup returns an app or panics.  The error of a property
    query is the one [deviceProperty] makes up: it names the property
    its caller asked for, 1000 at the first query and 1002 at the
    second. *)
Theorem setup_stops_at_first_error
    (env : setup_env) (r : outcome starfield) (t : trace) :
  newStarfield env = (r, t) ->
  first_failure env 0 t =
    match r with
    | Error e => Some (e, [])
    | _ => None
    end.
Proof.
  intros H. exact (proj1 (proj2 (proj2 (proj2 (newStarfield_cases _ _ _ H))))).
Qed.

Lemma setup_stops_at_first_error_witness :
  first_failure (with_string_property answers_once Sample.env) 0
    (calls_until_vr_init 11 ++
     [GetStringTrackedDeviceProperty TrackedDeviceIndexHmd
        PropTrackingSystemNameString;
      GetStringTrackedDeviceProperty TrackedDeviceIndexHmd
        PropTrackingSystemNameString]) =
  Some ("Couldn't get property 1002 from device 0"%string, []).
Proof.
  apply (setup_stops_at_first_error
           (with_string_property answers_once Sample.env)
           (Error "Couldn't get property 1002 from device 0")).
  reflexivity.
Defined.



Lemma preceded_found (p q : call -> bool) (t t' : trace) :
  preceded p q t = true -> existsb p t = true ->
  preceded p q (t ++ t') = true.
Proof.
  induction t as [|c t IH]; cbn [preceded existsb app]; [discriminate|].
  destruct (p c); [reflexivity|]. cbn [orb].
  destruct (q c); cbn [negb andb]; [discriminate|]. exact IH.
Qed.

Lemma preceded_quiet (p q : call -> bool) (t t' : trace) :
  preceded p q t = true -> Forall (fun c => q c = false) t' ->
  preceded p q (t ++ t') = true.
Proof.
  intros Ht Hq. induction t as [|c t IH]; cbn [preceded app] in *.
  - induction Hq as [|c t' Hc _ IH']; [reflexivity|].
    cbn [preceded]. destruct (p c); [reflexivity|]. now rewrite Hc.
  - destruct (p c); [reflexivity|].
    destruct (q c); cbn [negb andb] in *; [discriminate|]. now apply IH.
Qed.

(** X3: in every run of the program, whatever fails, no call into
    OpenGL or fizzle is made before the context of the window has been
    made current, and no call that needs the VR runtime before
    [openvr.Init]. *)
Theorem graphics_wait_for_context {L : Library}
    (env : setup_env) (frames : list frame_env) :
  preceded is_make_current is_graphics_call (snd (main env frames)) = true /\
  preceded is_vr_init is_vr_call (snd (main env frames)) = true.
Proof.
  unfold main.
  destruct (newStarfield env) as [[a | e | p] t] eqn:H;
    destruct (newStarfield_cases env _ _ H) as (Hg & Hv & _ & _ & Hr).
  - destruct Hr as (sys & sb & sm & sl & _ & _ & _ & _ & _ & _ & _ & _ & _
                    & Hmc & Hvi).
    destruct (run frames a) as [[e a'] t']. cbn [snd preceded].
    split; now apply preceded_found.
  - cbn [snd preceded].
    split; apply preceded_quiet; trivial; repeat constructor.
  - cbn [snd preceded]. split; assumption.
Qed.

(** X4: after a successful setup the star of index k has the mesh of
    the k-th call of [CreateSphere], the one material of all stars
    (white, shininess 10, the basic shader) and the position computed
    from the samples 3k, 3k+1 and 3k+2 of the random source; the setup
    has drawn 3000 samples and created 1000 spheres. *)
Theorem stars_follow_samples (env : setup_env) (a : starfield) (t : trace) :
  newStarfield env = (Ok a, t) ->
  exists sb,
    env_basic_shader env = inr sb /\
    renderables a = map (star env sb) (seq 0 1000) /\
    List.length (filter is_rand t) = 3000%nat /\
    List.length (filter is_create_sphere t) = 1000%nat.
Proof.
  intros H.
  destruct (proj2 (proj2 (proj2 (proj2 (newStarfield_cases env _ _ H)))))
    as (sys & sb & sm & sl & _ & Hsb & _ & _ & _ & Hrs & _ & Hr & Hc & _).
  exists sb. auto.
Qed.

Lemma stars_follow_samples_witness :
  exists sb,
    env_basic_shader Sample.env = inr sb /\
    renderables Sample.started = map (star Sample.env sb) (seq 0 1000) /\
    List.length (filter is_rand Sample.setup_trace) = 3000%nat /\
    List.length (filter is_create_sphere Sample.setup_trace) = 1000%nat.
Proof.
  apply (stars_follow_samples Sample.env Sample.started Sample.setup_trace).
  reflexivity.
Defined.

(** X5: after a successful setup the shader compiled from the lens
    distortion sources has gone to the distortion lens, with the two eye
    targets of the app, and the shader compiled from the render model
    sources to the device renderables, both with the system
    [openvr.Init] returned; no other call took a shader. *)
Theorem shaders_reach_their_users
    (env : setup_env) (a : starfield) (t : trace) :
  newStarfield env = (Ok a, t) ->
  exists sys sm sl,
    env_vr_init env = inr (Some sys) /\
    env_load_shader env ShaderRenderModelV ShaderRenderModelF = inr sm /\
    env_load_shader env ShaderLensDistortionV ShaderLensDistortionF
      = inr sl /\
    app_vrSystem a = {| System := sys |} /\
    filter is_shader_use t =
      [CreateDistortionLens sys sl (eyeLeft a) (eyeRight a);
       CreateDeviceRenderables sys sm].
Proof.
  intros H.
  destruct (proj2 (proj2 (proj2 (proj2 (newStarfield_cases env _ _ H)))))
    as (sys & sb & sm & sl & Hsys & _ & Hsm & Hsl & Hvr & _ & Hu & _).
  exists sys, sm, sl. auto.
Qed.

Lemma shaders_reach_their_users_witness :
  exists sys sm sl,
    env_vr_init Sample.env = inr (Some sys) /\
    env_load_shader Sample.env ShaderRenderModelV ShaderRenderModelF
      = inr sm /\
    env_load_shader Sample.env ShaderLensDistortionV ShaderLensDistortionF
      = inr sl /\
    app_vrSystem Sample.started = {| System := sys |} /\
    filter is_shader_use Sample.setup_trace =
      [CreateDistortionLens sys sl (eyeLeft Sample.started)
         (eyeRight Sample.started);
       CreateDeviceRenderables sys sm].
Proof.
  apply (shaders_reach_their_users Sample.env Sample.started
           Sample.setup_trace).
  reflexivity.
Defined.

(** X6: when the setup fails, [main] logs the error of the setup as its
    last call and never enters the frame loop: it polls, draws and
    submits nothing. *)
Theorem main_stops_on_setup_error {L : Library}
    (env : setup_env) (frames : list frame_env) (e : string) (t : trace) :
  newStarfield env = (Error e, t) ->
  main env frames = (None, LockOSThread :: t ++ [LogFatal e]) /\
  Forall (fun c => is_loop_call c = false) (snd (main env frames)).
Proof.
  intros H. unfold main. rewrite H. split; [reflexivity|].
  destruct (newStarfield_cases env _ _ H) as (_ & _ & Hl & _).
  cbn [snd]. constructor; [reflexivity|].
  apply Forall_app. split; [exact Hl | repeat constructor].
Qed.

Lemma main_stops_on_setup_error_witness :
  Forall (fun c => is_loop_call c = false)
    (snd (main (L := Sample.library) Sample.mute_env [Sample.lost])).
Proof.
  apply (proj2 (main_stops_on_setup_error (L := Sample.library)
                  Sample.mute_env [Sample.lost]
                  "Couldn't get property 1000 from device 0"
                  (snd (newStarfield Sample.mute_env)) eq_refl)).
Defined.

(* ================================================================== *)
(** * Further properties of the frame loop *)

(** ** Input *)

Lemma dispatch_all_closing evs a :
  closing (state_of (for_each evs dispatch a)) =
  closing a || existsb is_close_event evs.
Proof.
  revert a. induction evs as [|ev evs IH]; intros a.
  - cbn. now rewrite orb_false_r.
  - cbn [for_each existsb]. rewrite bind_state, IH.
    destruct ev as [w h | [|code] | ]; cbn -[closing];
      unfold closing; cbn; now rewrite ?orb_true_r.
Qed.

Lemma dispatch_all_size evs a :
  window_size (state_of (for_each evs dispatch a)) =
  last_size evs (window_size a).
Proof.
  revert a. induction evs as [|ev evs IH]; intros a; [reflexivity|].
  cbn [for_each last_size]. rewrite bind_state, IH.
  destruct ev as [w h | [|code] | ]; reflexivity.
Qed.

Lemma dispatch_all_trace evs a :
  trace_of (for_each evs dispatch a) =
  map (fun _ => SetShouldClose true) (filter is_escape evs).
Proof.
  revert a. induction evs as [|ev evs IH]; intros a; [reflexivity|].
  cbn [for_each]. rewrite bind_trace, IH.
  destruct ev as [w h | [|code] | ]; reflexivity.
Qed.

Lemma pollEvents_trace queue a :
  trace_of (pollEvents queue a) =
  flat_map (fun event => PollNextEvent :: map Printf (event_line event))
    queue ++ [PollNextEvent].
Proof.
  induction queue as [|event rest IH]; [reflexivity|].
  cbn [pollEvents flat_map]. rewrite !bind_trace.
  destruct (logEvent_spec event a) as [Hs _].
  change (state_of (emit PollNextEvent a)) with a.
  rewrite Hs, IH.
  unfold logEvent, event_line.
  repeat (destruct (_ =? _); [reflexivity|]). reflexivity.
Qed.

Lemma handleInput_state f a :
  state_of (handleInput f a) =
  state_of (for_each (window_events f) dispatch a).
Proof.
  unfold handleInput. rewrite !bind_state.
  change (state_of (emit PollEvents a)) with a.
  destruct (pollEvents_spec (vr_events f)
              (state_of (emit CheckKeyPresses
                 (state_of (for_each (window_events f) dispatch a)))))
    as [Hs _].
  rewrite Hs. reflexivity.
Qed.

Lemma handleInput_flag f a :
  closing (state_of (handleInput f a)) =
  closing a || existsb is_close_event (window_events f).
Proof. rewrite handleInput_state. apply dispatch_all_closing. Qed.

(** X7: [handleInput] leaves the close flag set exactly when it was set
    before or the window got an escape key press or a close request;
    resizes, other keys and the events of the VR runtime do not touch
    it. *)
Theorem handleInput_sets_close_flag (f : frame_env) (a : starfield) :
  closing (state_of (handleInput f a)) =
  closing a || existsb is_close_event (window_events f).
Proof. apply handleInput_flag. Qed.

(** X8: after [handleInput] the width and height kept in the window
    wrapper are those of the last resize event of the frame, and the old
    ones when the frame has no resize. *)
Theorem handleInput_tracks_window_size (f : frame_env) (a : starfield) :
  window_size (state_of (handleInput f a)) =
  last_size (window_events f) (window_size a).
Proof. rewrite handleInput_state. apply dispatch_all_size. Qed.

(** X9: the calls of [handleInput] are determined by the events alone:
    one poll of the window, [SetShouldClose(true)] once per escape key
    press, the check of the key bindings, then one poll of the VR
    runtime per queued event, each followed by the line logged for an
    attach, detach or update and by nothing for any other event, and one
    last poll that finds the queue empty. *)
Theorem handleInput_calls (f : frame_env) (a : starfield) :
  trace_of (handleInput f a) =
  [PollEvents] ++
  map (fun _ => SetShouldClose true) (filter is_escape (window_events f)) ++
  [CheckKeyPresses] ++
  flat_map (fun event => PollNextEvent :: map Printf (event_line event))
    (vr_events f) ++
  [PollNextEvent].
Proof.
  unfold handleInput. rewrite !bind_trace.
  rewrite dispatch_all_trace, pollEvents_trace. reflexivity.
Qed.

(** ** Frames *)

Lemma frame_trace_loop_calls {L : Library} f a :
  Forall (fun c => is_loop_call c || is_printf c = true) (frame_trace f a).
Proof.
  unfold frame_trace. apply Forall_app. split.
  - destruct (handleInput_spec f a) as (w & _ & _ & Ht).
    revert Ht. apply Forall_impl.
    intros [] H; try discriminate H; reflexivity.
  - rewrite renderFrame_trace. apply Forall_app. split.
    + generalize (renderStereoTargets_render (state_of (handleInput f a))).
      apply Forall_impl. intros [] H; try discriminate H; reflexivity.
    + unfold frame_tail. destruct (pose_valid f); repeat constructor.
Qed.

(** X10: a run of the frame loop changes nothing of the app but its
    window, the head pose and the head position: the eye targets, the
    eye transforms, the target size and the stars stay as the setup left
    them.  It makes no call of the setup: every call is one only the
    loop makes or a print. *)
Theorem run_keeps_scene {L : Library}
    (frames : list frame_env) (a : starfield) :
  same_scene a (state_of (run frames a)) /\
  Forall (fun c => is_loop_call c || is_printf c = true)
    (trace_of (run frames a)).
Proof.
  revert a. induction frames as [|f rest IH]; intros a;
    destruct (closing a) eqn:Hc.
  - rewrite run_closed by assumption.
    split; [apply same_scene_refl | repeat constructor].
  - rewrite run_open_nil by assumption.
    split; [apply same_scene_refl | repeat constructor].
  - rewrite run_closed by assumption.
    split; [apply same_scene_refl | repeat constructor].
  - rewrite run_open_cons by assumption.
    destruct (IH (after_frame f a)) as [Hs Ht]. split.
    + eapply same_scene_trans; [apply after_frame_scene | exact Hs].
    + unfold trace_of at 1. cbn [snd].
      constructor; [reflexivity|].
      apply Forall_app. split; [apply frame_trace_loop_calls | exact Ht].
Qed.

Lemma star_draws_filter a p v :
  filter is_draw (scene_draws a p v) = star_draws a p v (hmdLoc a).
Proof.
  unfold scene_draws, star_draws. cbn [app filter is_draw].
  rewrite filter_app. cbn [filter is_draw]. rewrite app_nil_r.
  apply filter_all, Forall_map_true. reflexivity.
Qed.

Lemma star_draws_eye_pass a fb p v :
  filter is_draw (eye_draw_pass a fb p v) = star_draws a p v (hmdLoc a).
Proof.
  unfold eye_draw_pass. cbn [app filter is_draw].
  rewrite filter_app, star_draws_filter. cbn [filter is_draw].
  apply app_nil_r.
Qed.

(** X11: every frame draws every star of the app twice with
    [DrawRenderable] and draws nothing else with it: first all the
    stars for the left eye, with the projection of the left eye and the
    view [PositionLeft] times the head pose, then all of them for the
    right eye, with the projection of the right eye and the view
    [PositionRight] times the head pose; in the order of the list, with
    a nil binder and the camera at the head position. *)
Theorem frame_draws_stars_twice {L : Library}
    (f : frame_env) (a : starfield) :
  let et := eyeTransforms a in
  filter is_draw (frame_trace f a) =
  star_draws a (ProjectionLeft et)
    (Mat4_Mul4 (PositionLeft et) (hmdPose a)) (hmdLoc a) ++
  star_draws a (ProjectionRight et)
    (Mat4_Mul4 (PositionRight et) (hmdPose a)) (hmdLoc a).
Proof.
  cbv zeta.
  rewrite <- (filter_sub is_draw is_render_call) by now intros [].
  rewrite frame_trace_render. unfold stereo_pass.
  rewrite !filter_app, !star_draws_eye_pass.
  unfold stereo_prologue, eye_resolve_pass. cbn [filter is_draw app].
  rewrite app_nil_r. reflexivity.
Qed.

(** X12: a pose reported valid in a frame is not used by that frame,
    which renders both eyes with the pose and the position the app held
    before; the next frame renders both eyes with its inverse as head
    pose and with its entries 9, 10 and 11 as head position, whatever
    that frame itself reports. *)
Theorem pose_is_used_one_frame_later {L : Library}
    (f g : frame_env) (a : starfield) :
  pose_valid f = true ->
  let m := DeviceToAbsoluteTracking (render_pose f) in
  filter is_render_call (frame_trace f a) =
    stereo_pass a (hmdPose a) (hmdLoc a) /\
  filter is_render_call (frame_trace g (after_frame f a)) =
    stereo_pass a (Mat4_Inv (Mat34ToMat4 m))
      (index m 9, index m 10, index m 11).
Proof.
  intros Hv m. split; [apply frame_trace_render|].
  rewrite frame_trace_render.
  rewrite (stereo_pass_scene a (after_frame f a)) by apply after_frame_scene.
  unfold after_frame. rewrite renderFrame_state, Hv. reflexivity.
Qed.

Lemma pose_is_used_one_frame_later_witness :
  filter is_render_call
    (frame_trace (L := Sample.library) Sample.tracked Sample.app) =
    stereo_pass (L := Sample.library) Sample.app Mat4_zero Vec3_zero /\
  filter is_render_call
    (frame_trace (L := Sample.library) Sample.lost
       (after_frame (L := Sample.library) Sample.tracked Sample.app)) =
    stereo_pass (L := Sample.library) Sample.app
      (Mat4_Inv (Library := Sample.library)
         (Mat34ToMat4 (Library := Sample.library)
            (DeviceToAbsoluteTracking (render_pose Sample.tracked))))
      (Sample.f32 0 1, Sample.f32 1 1, Sample.f32 0 1).
Proof.
  apply (pose_is_used_one_frame_later (L := Sample.library)
           Sample.tracked Sample.lost Sample.app).
  reflexivity.
Defined.

(** X13: a run of the loop ends closed with the close flag set, or it
    ends with the flag still clear after one iteration for each frame it
    was given. *)
Theorem run_ends_closed_or_out_of_frames {L : Library}
    (frames : list frame_env) (a : starfield) :
  match fst (fst (run frames a)) with
  | Closed => closing (state_of (run frames a)) = true
  | StillOpen =>
      closing (state_of (run frames a)) = false /\
      iterations frames a = List.length frames
  end.
Proof.
  revert a. induction frames as [|f rest IH]; intros a;
    destruct (closing a) eqn:Hc.
  - rewrite run_closed by assumption. exact Hc.
  - rewrite run_open_nil by assumption. cbn [iterations fst].
    rewrite Hc. split; [exact Hc | reflexivity].
  - rewrite run_closed by assumption. exact Hc.
  - rewrite run_open_cons by assumption. cbn [iterations fst]. rewrite Hc.
    specialize (IH (after_frame f a)).
    unfold state_of at 1 2. cbn [fst snd].
    destruct (fst (fst (run rest (after_frame f a)))); [exact IH|].
    destruct IH as [H1 H2]. split; [exact H1|]. cbn [List.length].
    now rewrite H2.
Qed.

(** X14: with the window open and no escape key press or close request
    in any frame, the loop goes through every frame and does not end:
    resizes, other keys, the events of the VR runtime and the poses
    cannot end it. *)
Theorem only_close_events_end_loop {L : Library}
    (frames : list frame_env) (a : starfield) :
  closing a = false ->
  Forall (fun f => existsb is_close_event (window_events f) = false)
    frames ->
  fst (fst (run frames a)) = StillOpen /\
  iterations frames a = List.length frames /\
  closing (state_of (run frames a)) = false.
Proof.
  intros Hc Hq. revert a Hc.
  induction Hq as [|f rest Hf _ IH]; intros a Hc.
  - rewrite run_open_nil by assumption. cbn [iterations]. rewrite Hc. auto.
  - rewrite run_open_cons by assumption. cbn [iterations fst]. rewrite Hc.
    assert (Hafter : closing (after_frame f a) = false).
    { unfold after_frame.
      now rewrite renderFrame_closing, handleInput_flag, Hc, Hf. }
    destruct (IH _ Hafter) as (H1 & H2 & H3).
    unfold state_of at 1. cbn [fst snd List.length].
    rewrite H2. auto.
Qed.

Lemma only_close_events_end_loop_witness :
  fst (fst (run (L := Sample.library) [Sample.tracked; Sample.lost]
              Sample.app)) = StillOpen /\
  iterations (L := Sample.library) [Sample.tracked; Sample.lost] Sample.app
    = 2%nat /\
  closing (state_of (run (L := Sample.library)
                       [Sample.tracked; Sample.lost] Sample.app)) = false.
Proof.
  apply (only_close_events_end_loop (L := Sample.library)
           [Sample.tracked; Sample.lost] Sample.app).
  - reflexivity.
  - repeat constructor.
Defined.

Lemma int32_small z : 0 <= z < 2 ^ 31 -> int32 z = z.
Proof.
  intros Hz. unfold int32. rewrite Z.mod_small; lia.
Qed.

Lemma int32_large z : 2 ^ 31 <= z < 2 ^ 32 -> int32 z = z - 2 ^ 32.
Proof.
  intros Hz. unfold int32.
  replace (z + 2 ^ 31) with (z - 2 ^ 31 + 1 * 2 ^ 32) by lia.
  rewrite Z.mod_add by lia. rewrite Z.mod_small; lia.
Qed.

Lemma scene_draws_kind a p v :
  Forall (fun c => is_scene_call c = true) (scene_draws a p v).
Proof.
  unfold scene_draws. apply Forall_app. split; [repeat constructor|].
  apply Forall_app. split; [| repeat constructor].
  apply Forall_map_true. reflexivity.
Qed.

Lemma frame_trace_rectangles {L : Library} f a :
  filter is_viewport (frame_trace f a) =
    eye_viewports (int32 (width a)) (int32 (height a)) /\
  filter is_blit (frame_trace f a) =
    eye_blits (int32 (width a)) (int32 (height a)).
Proof.
  unfold frame_trace. rewrite !filter_app.
  destruct (handleInput_spec f a) as (w & Hs & _ & Ht).
  rewrite (filter_none is_viewport is_input_call);
    [| now intros [] | exact Ht].
  rewrite (filter_none is_blit is_input_call);
    [| now intros [] | exact Ht].
  rewrite renderFrame_trace, !filter_app, Hs, renderStereoTargets_eq.
  unfold trace_of at 1 2. cbn [snd].
  unfold eye_draw_pass. rewrite !filter_app.
  rewrite !(filter_none is_viewport is_scene_call _
              (fun c => ltac:(now destruct c)) (scene_draws_kind _ _ _)).
  rewrite !(filter_none is_blit is_scene_call _
              (fun c => ltac:(now destruct c)) (scene_draws_kind _ _ _)).
  unfold frame_tail. destruct (pose_valid f); split; reflexivity.
Qed.

(** X15: when the size of the eye targets fits an [int32], the two
    viewports of a frame and the two blits that resolve the eyes cover
    exactly a rectangle of that size at the origin. *)
Theorem eye_rectangles_have_target_size {L : Library}
    (f : frame_env) (a : starfield) :
  0 <= width a < 2 ^ 31 ->
  0 <= height a < 2 ^ 31 ->
  filter is_viewport (frame_trace f a) = eye_viewports (width a) (height a) /\
  filter is_blit (frame_trace f a) = eye_blits (width a) (height a).
Proof.
  intros Hw Hh. destruct (frame_trace_rectangles f a) as [Hv Hb].
  rewrite (int32_small _ Hw), (int32_small _ Hh) in Hv, Hb. auto.
Qed.

Lemma eye_rectangles_have_target_size_witness :
  filter is_viewport
    (frame_trace (L := Sample.library) Sample.lost Sample.app) =
    eye_viewports 1512 1680 /\
  filter is_blit
    (frame_trace (L := Sample.library) Sample.lost Sample.app) =
    eye_blits 1512 1680.
Proof.
  apply (eye_rectangles_have_target_size (L := Sample.library)
           Sample.lost Sample.app); cbn; lia.
Defined.

(** X16: a target width of 2^31 or more, which a [uint32] can hold, is
    converted to a negative [int32]: the viewports of a frame then get
    the width less 2^32. *)
Theorem wide_target_wraps_negative {L : Library}
    (f : frame_env) (a : starfield) :
  2 ^ 31 <= width a < 2 ^ 32 ->
  filter is_viewport (frame_trace f a) =
    eye_viewports (width a - 2 ^ 32) (int32 (height a)) /\
  width a - 2 ^ 32 < 0.
Proof.
  intros Hw. destruct (frame_trace_rectangles f a) as [Hv _].
  rewrite (int32_large _ Hw) in Hv. split; [exact Hv | lia].
Qed.

Lemma wide_target_wraps_negative_witness :
  filter is_viewport
    (frame_trace (L := Sample.library) Sample.lost wide_app) =
    eye_viewports (-1) 1680 /\
  4294967295 - 2 ^ 32 < 0.
Proof.
  apply (wide_target_wraps_negative (L := Sample.library) Sample.lost
           wide_app).
  cbn. lia.
Defined.

(** ** Runs *)

Lemma run_nonempty {L : Library} frames a : trace_of (run frames a) <> [].
Proof.
  destruct frames as [|f rest]; destruct (closing a) eqn:Hc.
  - rewrite run_closed by assumption. discriminate.
  - rewrite run_open_nil by assumption. discriminate.
  - rewrite run_closed by assumption. discriminate.
  - rewrite run_open_cons by assumption. discriminate.
Qed.

(** X17: frames supplied after the loop was left are never looked at;
    and a run that used up its frames with the window open goes on, when
    given more frames, from the state it had reached: its last check of
    the flag becomes the first check of the rest of the run. *)
Theorem run_continues {L : Library}
    (pre post : list frame_env) (a : starfield) :
  (fst (fst (run pre a)) = Closed -> run (pre ++ post) a = run pre a) /\
  (fst (fst (run pre a)) = StillOpen ->
   run (pre ++ post) a =
   (fst (fst (run post (state_of (run pre a)))),
    state_of (run post (state_of (run pre a))),
    removelast (trace_of (run pre a)) ++
    trace_of (run post (state_of (run pre a))))).
Proof.
  revert a. induction pre as [|f rest IH]; intros a;
    destruct (closing a) eqn:Hc; cbn [app].
  - rewrite !(run_closed _ _ Hc). split; [reflexivity | discriminate].
  - rewrite (run_open_nil _ Hc). split; [discriminate|]. intros _.
    cbn [state_of trace_of fst snd removelast app].
    now destruct (run post a) as [[e a'] t'].
  - rewrite !(run_closed _ _ Hc). split; [reflexivity | discriminate].
  - rewrite !(run_open_cons _ _ _ Hc).
    destruct (IH (after_frame f a)) as [IHc IHo].
    pose proof (run_nonempty rest (after_frame f a)) as Hne.
    destruct (run rest (after_frame f a)) as [[e1 a1] t1].
    unfold state_of, trace_of in *. cbn [fst snd] in *.
    split; intros He.
    + now rewrite (IHc He).
    + rewrite (IHo He). cbn [fst snd].
      change (ShouldClose :: frame_trace f a ++ t1)
        with ((ShouldClose :: frame_trace f a) ++ t1).
      rewrite removelast_app by exact Hne.
      now rewrite <- app_assoc.
Qed.

Lemma run_continues_witness :
  run (L := Sample.library) ([Sample.escape] ++ [Sample.tracked])
    Sample.app =
  run (L := Sample.library) [Sample.escape] Sample.app.
Proof.
  apply (proj1 (run_continues (L := Sample.library) [Sample.escape]
                  [Sample.tracked] Sample.app)).
  reflexivity.
Defined.

(** X18: the frame in which the window gets an escape key press or a
    close request is still rendered and submitted in full; the loop is
    left at the next check of the flag, whatever frames would follow. *)
Theorem close_request_ends_loop_after_frame {L : Library}
    (f : frame_env) (rest : list frame_env) (a : starfield) :
  closing a = false ->
  existsb is_close_event (window_events f) = true ->
  run (f :: rest) a =
    (Closed, after_frame f a,
     ShouldClose :: frame_trace f a ++ [ShouldClose]) /\
  filter is_pacing (trace_of (run (f :: rest) a)) = pacing_calls a.
Proof.
  intros Hc Hev.
  assert (Hrun : run (f :: rest) a =
                 (Closed, after_frame f a,
                  ShouldClose :: frame_trace f a ++ [ShouldClose])).
  { apply run_closes_after; [exact Hc|].
    now rewrite handleInput_flag, Hc, Hev. }
  split; [exact Hrun|]. rewrite Hrun.
  unfold trace_of. cbn [snd filter is_pacing].
  rewrite filter_app, frame_trace_pacing. cbn [filter is_pacing].
  apply app_nil_r.
Qed.

Lemma close_request_ends_loop_after_frame_witness :
  run (L := Sample.library) [Sample.escape; Sample.tracked] Sample.app =
    (Closed, after_frame (L := Sample.library) Sample.escape Sample.app,
     ShouldClose :: frame_trace (L := Sample.library) Sample.escape
                      Sample.app ++ [ShouldClose]) /\
  filter is_pacing
    (trace_of (run (L := Sample.library) [Sample.escape; Sample.tracked]
                 Sample.app)) =
  pacing_calls Sample.app.
Proof.
  apply (close_request_ends_loop_after_frame (L := Sample.library)
           Sample.escape [Sample.tracked] Sample.app); reflexivity.
Defined.
